(** * Casino-2 ledger server: a shallow embedding of [server.js]

    The development follows the source file top to bottom: the string
    helpers the handlers rely on ([trim], [parseInt]), the persisted data
    ([balances.json]), the file and cache operations ([ensureDataFile],
    [loadData], [saveData], [getOrCreatePlayer], [appendHistory]) and the
    eight Express handlers.

    Modelling conventions, and where the model stops being exact.
    - JavaScript numbers that the handlers compute with are integers; they
      are modelled by [Z].  A double holds every integer up to 2^53 in
      magnitude ([safe]); beyond that the code rounds and the model does
      not, so statements about computed values carry [safe] hypotheses.
    - A string is a sequence of code units; the model keeps the code units
      below 256, one per [ascii], and with them the seven white-space code
      units of that range.
    - A request field is a string or is missing ([Js.Value]).  A number
      in a numeric field behaves as its decimal text, and a falsy value
      in a field that a handler trims behaves as a missing one; a truthy
      value that is not a string makes [.trim] throw before any
      validation, and such a request is not a [Request].
    - [data.players] is a plain object used as a dictionary: a
      [gmap string Player].  Stored values are objects, hence truthy, so
      [!data.players[username]] is "the key is absent" for every username
      that is [ordinary].  For the other usernames ([inherited_names]) the
      JavaScript lookup finds a property inherited from [Object.prototype]
      when the store has no such key, and the handlers then work on that
      object instead of a player; the model does not follow them there, so
      statements about what a handler does for a username carry an
      [ordinary] hypothesis.
    - The backing file is missing, unreadable as an object, a plain object
      without a usable [players], or a serialised store ([FileContent]).
    - The process state that the handlers touch is collected in [World]:
      the content of the backing file, the global [dataCache], the log of
      [fs.writeFileSync] calls and the wall clock.  Code that touches it
      lives in the state monad [M].
    - [player] in a handler is a reference into [dataCache.players]; the
      model reads the record, updates a local copy and writes it back under
      the same key before anything else can observe the store. *)

From Stdlib Require Import ZArith String Ascii List Lia Bool.
From stdpp Require Import gmap strings list fin_maps.

Local Open Scope string_scope.
Local Open Scope list_scope.
Local Open Scope Z_scope.

(** ** Strings *)

Module Js.

(** WhiteSpace and LineTerminator code units below 256:
    TAB, LF, VT, FF, CR, SP and NBSP. *)
Definition isWhiteSpace (c : ascii) : bool :=
  let n := Z.of_nat (nat_of_ascii c) in
  ((9 <=? n) && (n <=? 13)) || (n =? 32) || (n =? 160).

Fixpoint trimStart (s : string) : string :=
  match s with
  | EmptyString => EmptyString
  | String c r => if isWhiteSpace c then trimStart r else s
  end.

Fixpoint rev_onto (s acc : string) : string :=
  match s with
  | EmptyString => acc
  | String c r => rev_onto r (String c acc)
  end.

Definition reverse (s : string) : string := rev_onto s EmptyString.

Definition trimEnd (s : string) : string := reverse (trimStart (reverse s)).

(** [String.prototype.trim] *)
Definition trim (s : string) : string := trimEnd (trimStart s).

(** The values a request field can hold in this model: the field is
    missing, or it holds a string (a number sent by a client reaches
    [parseInt] as its decimal text). *)
Inductive Value :=
| Undefined
| Str (s : string).

(** [ToString] *)
Definition toString (v : Value) : string :=
  match v with
  | Undefined => "undefined"
  | Str s => s
  end.

(** [v || d] for a string-or-undefined [v]: the empty string is falsy. *)
Definition or_else (v : Value) (d : string) : string :=
  match v with
  | Undefined => d
  | Str EmptyString => d
  | Str s => s
  end.

(** [s || d] on strings. *)
Definition str_or (s d : string) : string :=
  match s with
  | EmptyString => d
  | _ => s
  end.

(** [!s] on strings. *)
Definition is_empty (s : string) : bool :=
  match s with
  | EmptyString => true
  | _ => false
  end.

(** A JavaScript number as far as [parseInt] is concerned. *)
Inductive Number :=
| NaN
| Num (z : Z).

Definition digit_of (c : ascii) : option Z :=
  let n := Z.of_nat (nat_of_ascii c) in
  if (48 <=? n) && (n <=? 57) then Some (n - 48) else None.

(** The longest prefix of decimal digits, read most significant first.
    [acc] is [None] as long as no digit has been consumed. *)
Fixpoint digits (s : string) (acc : option Z) : option Z :=
  match s with
  | EmptyString => acc
  | String c r =>
      match digit_of c with
      | Some d => digits r (Some (10 * default 0 acc + d))
      | None => acc
      end
  end.

(** [parseInt(string, 10)]: skip leading white space, read an optional
    sign, then the longest run of decimal digits; no digit gives [NaN].
    The result is the integer that the digits denote; [parseInt] returns
    the nearest double, which is that integer up to 2^53 in magnitude and
    has its sign in every case. *)
Definition parseInt10 (s : string) : Number :=
  let s1 := trimStart s in
  let '(sign, s2) :=
    match s1 with
    | String c r =>
        if Ascii.eqb c "-" then (-1, r)
        else if Ascii.eqb c "+" then (1, r)
        else (1, s1)
    | EmptyString => (1, s1)
    end in
  match digits s2 None with
  | None => NaN
  | Some m => Num (sign * m)
  end.

(** [parseInt(value, 10)] on a request field. *)
Definition parseInt (v : Value) : Number := parseInt10 (toString v).


End Js.

(** ** Persisted data *)

Record HistoryEntry := mkEntry {
  ts : string;
  game : string;
  delta : Z;
  desc : string
}.

Record Player := mkPlayer {
  balance : Z;
  history : list HistoryEntry
}.

Record Data := mkData {
  players : gmap string Player
}.

(** [{ players: {} }] *)
Definition empty_data : Data := mkData ∅.

(** What [fs] can find at [DATA_FILE]. *)
Inductive FileContent :=
| NoFile                 (* the file does not exist *)
| Unparseable            (* the try block throws: not JSON, or the JSON null *)
| NoPlayers              (* a plain object; [players] is missing or no object *)
| Stored (d : Data).     (* a serialised store *)

Record World := mkWorld {
  disk : FileContent;
  dataCache : Data;
  writes : list Data;          (* payloads of fs.writeFileSync, newest first *)
  clock : nat -> string;       (* the n-th reading of new Date().toISOString() *)
  ticks : nat                  (* readings taken so far *)
}.

(** ** The state monad of the server process *)

Definition M (A : Type) : Type := World -> A * World.

Definition ret {A} (a : A) : M A := fun w => (a, w).

Definition bind {A B} (m : M A) (k : A -> M B) : M B :=
  fun w => let '(a, w1) := m w in k a w1.

Notation "'do' x <- m ; k" := (bind m (fun x => k))
  (at level 10, x name, m at level 100, k at level 200).
Notation "'exec' m ; k" := (bind m (fun _ => k))
  (at level 10, m at level 100, k at level 200).

(** [fs.writeFileSync(DATA_FILE, JSON.stringify(d, null, 2))]: the
    file then parses back to [d] (the integers that a double holds
    survive [JSON.stringify] and [JSON.parse] unchanged). *)
Definition writeFile (d : Data) : M unit := fun w =>
  (tt, mkWorld (Stored d) (dataCache w) (d :: writes w) (clock w) (ticks w)).

(** [new Date().toISOString()] *)
Definition now : M string := fun w =>
  (clock w (ticks w),
   mkWorld (disk w) (dataCache w) (writes w) (clock w) (S (ticks w))).

Definition getCache : M Data := fun w => (dataCache w, w).

Definition setCache (d : Data) : M unit := fun w =>
  (tt, mkWorld (disk w) d (writes w) (clock w) (ticks w)).

Definition readDisk : M FileContent := fun w => (disk w, w).

(** ** server.js, lines 8-55 *)

Definition ensureDataFile : M unit :=
  do f <- readDisk;
  match f with
  | NoFile => writeFile empty_data
  | _ => ret tt
  end.

Definition saveData (data : Data) : M unit := writeFile data.

(** [loadData] returns a fresh object; the [NoFile] branch cannot be taken
    after [ensureDataFile] (see [ensureDataFile_exists]). *)
Definition loadData : M Data :=
  exec ensureDataFile;
  do f <- readDisk;
  match f with
  | Stored d => ret d
  | NoPlayers => ret empty_data
  | Unparseable => exec writeFile empty_data; ret empty_data
  | NoFile => ret empty_data
  end.

Definition appendHistory (player : Player) (entry : HistoryEntry) : Player :=
  mkPlayer (balance player) (history player ++ [entry]).

(** [data.players[username] = player] on the object held by [dataCache]. *)
Definition putPlayer (username : string) (player : Player) : M unit :=
  do data <- getCache;
  setCache (mkData (<[username := player]> (players data))).

(** [getOrCreatePlayer(dataCache, username)]: every call site passes the
    object bound to [dataCache], which is where the model keeps it.
    [!data.players[username]] is read as "the store has no such key",
    which is what it means for the usernames that are [ordinary]. *)
Definition getOrCreatePlayer (username : string) : M Player :=
  do data <- getCache;
  match players data !! username with
  | Some player => ret player
  | None =>
      do t <- now;
      let player :=
        appendHistory (mkPlayer 1000 [])
          (mkEntry t "system" 0 "auto-created profile") in
      exec putPlayer username player;
      do data' <- getCache;
      exec saveData data';
      ret player
  end.

(** ** Requests and responses *)

(** The fields a handler reads from [req.query] or [req.body]. *)
Record Request := mkRequest {
  r_username : Js.Value;
  r_balance : Js.Value;
  r_amount : Js.Value;
  r_game : Js.Value;
  r_desc : Js.Value;
  r_note : Js.Value
}.

(** The JSON payloads the handlers send. *)
Inductive Body :=
| Failure (error : string)                      (* { ok: false, error } *)
| Ok                                            (* { ok: true } *)
| OkBalance (b : Z)                             (* { ok: true, balance } *)
| OkProfile (username : string) (b : Z)         (* { ok: true, username, balance } *)
| OkUsers (users : list (string * Z))           (* { ok: true, users } *)
| OkDetail (username : string) (b : Z) (h : list HistoryEntry).

Record Response := mkResponse {
  status : Z;
  body : Body
}.

(** [res.json(b)]: the status stays at Express' default, 200. *)
Definition json (b : Body) : Response := mkResponse 200 b.

(** [res.status(400).json({ ok: false, error })] *)
Definition bad_request (error : string) : Response :=
  mkResponse 400 (Failure error).

(** ** server.js, lines 65-223 *)

Definition parseInteger (value : Js.Value) : option Z :=
  let parsed := Js.parseInt value in
  match parsed with
  | Js.NaN => None
  | Js.Num z => Some z
  end.

(** [dataCache = loadData()] *)
Definition reload : M unit :=
  do data <- loadData;
  setCache data.

(** [saveData(dataCache)] *)
Definition saveCache : M unit :=
  do data <- getCache;
  saveData data.

Definition get_profile (req : Request) : M Response :=
  let username := Js.trim (Js.or_else (r_username req) "") in
  if Js.is_empty username then ret (bad_request "USERNAME_REQUIRED") else
  exec reload;
  do player <- getOrCreatePlayer username;
  exec saveCache;
  ret (json (OkProfile username (balance player))).

Definition post_profile_save (req : Request) : M Response :=
  let username := Js.trim (Js.or_else (r_username req) "") in
  let balanceValue := parseInteger (r_balance req) in
  if Js.is_empty username then ret (bad_request "USERNAME_REQUIRED") else
  match balanceValue with
  | None => ret (bad_request "INVALID_BALANCE")
  | Some b =>
      if b <? 0 then ret (bad_request "INVALID_BALANCE") else
      exec reload;
      do player <- getOrCreatePlayer username;
      let player := mkPlayer b (history player) in
      do t <- now;
      let player := appendHistory player (mkEntry t "manual-save" 0 "session save") in
      exec putPlayer username player;
      exec saveCache;
      ret (json Ok)
  end.

Definition post_game_charge (req : Request) : M Response :=
  let username := Js.trim (Js.or_else (r_username req) "") in
  let game := Js.str_or (Js.trim (Js.or_else (r_game req) "")) "unknown" in
  let amountValue := parseInteger (r_amount req) in
  let desc := Js.str_or (Js.trim (Js.or_else (r_desc req) "")) "game charge" in
  if Js.is_empty username then ret (bad_request "USERNAME_REQUIRED") else
  match amountValue with
  | None => ret (bad_request "INVALID_AMOUNT")
  | Some a =>
      if a <=? 0 then ret (bad_request "INVALID_AMOUNT") else
      exec reload;
      do player <- getOrCreatePlayer username;
      if balance player - a <? 0 then ret (json (Failure "INSUFFICIENT_FUNDS")) else
      let player := mkPlayer (balance player - a) (history player) in
      do t <- now;
      let player := appendHistory player (mkEntry t game (- a) desc) in
      exec putPlayer username player;
      exec saveCache;
      ret (json (OkBalance (balance player)))
  end.

Definition post_game_payout (req : Request) : M Response :=
  let username := Js.trim (Js.or_else (r_username req) "") in
  let game := Js.str_or (Js.trim (Js.or_else (r_game req) "")) "unknown" in
  let amountValue := parseInteger (r_amount req) in
  let desc := Js.str_or (Js.trim (Js.or_else (r_desc req) "")) "game payout" in
  if Js.is_empty username then ret (bad_request "USERNAME_REQUIRED") else
  match amountValue with
  | None => ret (bad_request "INVALID_AMOUNT")
  | Some a =>
      if a <=? 0 then ret (bad_request "INVALID_AMOUNT") else
      exec reload;
      do player <- getOrCreatePlayer username;
      let player := mkPlayer (balance player + a) (history player) in
      do t <- now;
      let player := appendHistory player (mkEntry t game a desc) in
      exec putPlayer username player;
      exec saveCache;
      ret (json (OkBalance (balance player)))
  end.

(** [Object.entries] lists the keys in insertion order; the model keeps
    the entries and leaves their order to [map_to_list]. *)
Definition get_admin_users (req : Request) : M Response :=
  exec reload;
  do data <- getCache;
  let users :=
    map (fun e : string * Player => (fst e, balance (snd e)))
        (map_to_list (players data)) in
  ret (json (OkUsers users)).

Definition get_admin_user_detail (req : Request) : M Response :=
  let username := Js.trim (Js.or_else (r_username req) "") in
  if Js.is_empty username then ret (bad_request "USERNAME_REQUIRED") else
  exec reload;
  do player <- getOrCreatePlayer username;
  exec saveCache;
  ret (json (OkDetail username (balance player) (history player))).

Definition post_admin_set_balance (req : Request) : M Response :=
  let username := Js.trim (Js.or_else (r_username req) "") in
  let balanceValue := parseInteger (r_balance req) in
  let note := Js.str_or (Js.trim (Js.or_else (r_note req) "")) "admin adjustment" in
  if Js.is_empty username then ret (bad_request "USERNAME_REQUIRED") else
  match balanceValue with
  | None => ret (bad_request "INVALID_BALANCE")
  | Some b =>
      if b <? 0 then ret (bad_request "INVALID_BALANCE") else
      exec reload;
      do player <- getOrCreatePlayer username;
      let delta := b - balance player in
      let player := mkPlayer b (history player) in
      do t <- now;
      let player := appendHistory player (mkEntry t "admin-adjust" delta note) in
      exec putPlayer username player;
      exec saveCache;
      ret (json (OkBalance (balance player)))
  end.

(** As in [getOrCreatePlayer], [dataCache.players[username]] is read as
    "the store has this key". *)
Definition post_admin_delete_user (req : Request) : M Response :=
  let username := Js.trim (Js.or_else (r_username req) "") in
  if Js.is_empty username then ret (bad_request "USERNAME_REQUIRED") else
  exec reload;
  do data <- getCache;
  match players data !! username with
  | Some _ =>
      exec setCache (mkData (delete username (players data)));
      exec saveCache;
      ret (json Ok)
  | None => ret (json Ok)
  end.

(** The routes of the application. *)
Inductive Route :=
| GET_profile
| POST_profile_save
| POST_game_charge
| POST_game_payout
| GET_admin_users
| GET_admin_user_detail
| POST_admin_set_balance
| POST_admin_delete_user.

Definition handle (r : Route) : Request -> M Response :=
  match r with
  | GET_profile => get_profile
  | POST_profile_save => post_profile_save
  | POST_game_charge => post_game_charge
  | POST_game_payout => post_game_payout
  | GET_admin_users => get_admin_users
  | GET_admin_user_detail => get_admin_user_detail
  | POST_admin_set_balance => post_admin_set_balance
  | POST_admin_delete_user => post_admin_delete_user
  end.

(** The server handles requests one at a time: the world after a list of
    requests, and the responses sent, oldest first. *)
Fixpoint serve (reqs : list (Route * Request)) : M (list Response) :=
  match reqs with
  | [] => ret []
  | (r, q) :: rest =>
      do resp <- handle r q;
      do resps <- serve rest;
      ret (resp :: resps)
  end.

(** Lines 57-58: what the module does when it is loaded. *)
Definition startup : M unit :=
  exec ensureDataFile;
  reload.

(** * Vocabulary of the statements *)

(** The property names that a plain object inherits from
    [Object.prototype], and [balance], the one property that the handlers
    can add to it (by assigning [player.balance] when [player] is
    [Object.prototype] itself, reached through the username [__proto__]). *)
Definition inherited_names : list string :=
  ["constructor"; "__defineGetter__"; "__defineSetter__"; "hasOwnProperty";
   "__lookupGetter__"; "__lookupSetter__"; "isPrototypeOf";
   "propertyIsEnumerable"; "toString"; "valueOf"; "__proto__";
   "toLocaleString"; "balance"].

(** A username for which [data.players[username]] is the stored record or
    [undefined], whatever the state of the process. *)
Definition ordinary (username : string) : bool :=
  forallb (fun n => negb (String.eqb username n)) inherited_names.

(** The largest magnitude up to which every integer is a double. *)
Definition max_exact : Z := 2 ^ 53.

(** An integer that [parseInt] returns, and the handlers store, exactly. *)
Definition safe (z : Z) : Prop := - max_exact <= z <= max_exact.

(** The username a handler works with. *)
Definition username_of (req : Request) : string :=
  Js.trim (Js.or_else (r_username req) "").

(** The store a file content stands for once [loadData] has read it. *)
Definition stored (f : FileContent) : Data :=
  match f with
  | Stored d => d
  | _ => empty_data
  end.

(** The world right after [dataCache = loadData()]. *)
Definition after_load (w : World) : World :=
  match disk w with
  | Stored d => mkWorld (Stored d) d (writes w) (clock w) (ticks w)
  | NoPlayers => mkWorld NoPlayers empty_data (writes w) (clock w) (ticks w)
  | NoFile | Unparseable =>
      mkWorld (Stored empty_data) empty_data (empty_data :: writes w)
        (clock w) (ticks w)
  end.

(** The profile that [getOrCreatePlayer] makes at time [t]. *)
Definition default_player (t : string) : Player :=
  mkPlayer 1000 [mkEntry t "system" 0 "auto-created profile"].

(** The record a handler gets for [username] from [getOrCreatePlayer]
    when the request starts in world [w]. *)
Definition player_at (w : World) (username : string) : Player :=
  match players (stored (disk w)) !! username with
  | Some p => p
  | None => default_player (clock w (ticks w))
  end.

(** The history a store holds for a username; none when it is absent. *)
Definition history_of (d : Data) (username : string) : list HistoryEntry :=
  match players d !! username with
  | Some p => history p
  | None => []
  end.

(** A response that reports success: [{ ok: true, ... }]. *)
Definition succeeded (resp : Response) : bool :=
  match body resp with
  | Failure _ => false
  | _ => true
  end.

(** Entering a handler: reload, then fetch or create the player. *)
Definition enter (username : string) : M Player :=
  exec reload;
  getOrCreatePlayer username.

(** The tail shared by the four mutating handlers: stamp an entry, push
    it, write the record back and persist the cache. *)
Definition commit (u : string) (p : Player) (e : string -> HistoryEntry)
    (w : World) : World :=
  let p' := appendHistory p (e (clock w (ticks w))) in
  let d := mkData (<[u := p']> (players (dataCache w))) in
  mkWorld (Stored d) d (d :: writes w) (clock w) (S (ticks w)).

(** The three ways the validation of a request with a number can go. *)
Inductive Checked :=
| NoUsername
| BadNumber
| Valid (n : Z).

(** [lower] is the least admitted value: 0 for a balance, 1 for an
    amount. *)
Definition check (lower : Z) (req : Request) (field : Js.Value) : Checked :=
  if Js.is_empty (username_of req) then NoUsername else
  match parseInteger field with
  | None => BadNumber
  | Some n => if n <? lower then BadNumber else Valid n
  end.

(** Sample worlds and requests, for the concrete instances below. *)
Definition sample_clock (n : nat) : string := "2024-05-01T12:00:00.000Z".

(** A server whose file holds [{ players: {} }]. *)
Definition fresh_world : World :=
  mkWorld (Stored empty_data) empty_data [] sample_clock 0.

(** A server whose file holds one player, [alice], at balance 1000. *)
Definition alice_data : Data :=
  mkData {[ "alice" := default_player "2024-04-30T08:00:00.000Z" ]}.

(** The same server, its cache in step with the file. *)
Definition alice_world : World :=
  mkWorld (Stored alice_data) alice_data [] sample_clock 0.

(** A body or query carrying [username] and one number, sent both as
    [balance] and as [amount]. *)
Definition request (username number : string) : Request :=
  mkRequest (Js.Str username) (Js.Str number) (Js.Str number)
    Js.Undefined Js.Undefined Js.Undefined.

(** The four routes that change a balance. *)
Definition mutating (r : Route) : bool :=
  match r with
  | POST_profile_save | POST_game_charge
  | POST_game_payout | POST_admin_set_balance => true
  | _ => false
  end.



(** The balance the file holds for a username. *)
Definition stored_balance (w : World) (username : string) : option Z :=
  balance <$> players (stored (disk w)) !! username.

(** The amount of the request does not pass validation: [parseInteger]
    gives [null], or an integer that is not strictly positive. *)
Definition amount_invalid (req : Request) : Prop :=
  parseInteger (r_amount req) = None \/
  exists a, parseInteger (r_amount req) = Some a /\ a <= 0.

(** The text begins with a decimal digit. *)
Definition starts_with_digit (s : string) : bool :=
  match s with
  | EmptyString => false
  | String c _ =>
      match Js.digit_of c with
      | Some _ => true
      | None => false
      end
  end.

(** What [parseInt] says about a field that fails validation against the
    least admitted value [lower]. *)
Definition below (lower : Z) (s : string) : Prop :=
  Js.parseInt10 s = Js.NaN \/
  exists z, Js.parseInt10 s = Js.Num z /\ z < lower.

(** ** Vocabulary of the further properties *)

(** What a request can do to the world, route by route: the response
    that is sent and the world that is left.  [handle_effect] shows that
    every run of a handler is one of these. *)
Inductive Effect (req : Request) (w : World) :
    Route -> Response -> World -> Prop :=
| Rejected_username (r : Route) :
    r <> GET_admin_users ->
    username_of req = "" ->
    Effect req w r (bad_request "USERNAME_REQUIRED") w
| Rejected_balance (r : Route) :
    r = POST_profile_save \/ r = POST_admin_set_balance ->
    username_of req <> "" ->
    Effect req w r (bad_request "INVALID_BALANCE") w
| Rejected_amount (r : Route) :
    r = POST_game_charge \/ r = POST_game_payout ->
    username_of req <> "" ->
    Effect req w r (bad_request "INVALID_AMOUNT") w
| Listed (users : list (string * Z)) :
    Effect req w GET_admin_users (json (OkUsers users)) (after_load w)
| Read_profile :
    username_of req <> "" ->
    Effect req w GET_profile
      (json (OkProfile (username_of req)
               (balance (player_at w (username_of req)))))
      (snd (saveCache (snd (enter (username_of req) w))))
| Read_detail :
    username_of req <> "" ->
    Effect req w GET_admin_user_detail
      (json (OkDetail (username_of req)
               (balance (player_at w (username_of req)))
               (history (player_at w (username_of req)))))
      (snd (saveCache (snd (enter (username_of req) w))))
| Refused :
    username_of req <> "" ->
    Effect req w POST_game_charge (json (Failure "INSUFFICIENT_FUNDS"))
      (snd (enter (username_of req) w))
| Saved (b : Z) :
    username_of req <> "" ->
    Effect req w POST_profile_save (json Ok)
      (commit (username_of req)
         (mkPlayer b (history (player_at w (username_of req))))
         (fun t => mkEntry t "manual-save" 0 "session save")
         (snd (enter (username_of req) w)))
| Adjusted (r : Route) (b : Z) (e : string -> HistoryEntry) :
    r = POST_game_charge \/ r = POST_game_payout \/
      r = POST_admin_set_balance ->
    username_of req <> "" ->
    (forall t, ts (e t) = t /\
               delta (e t) = b - balance (player_at w (username_of req)) /\
               game (e t) <> "" /\ desc (e t) <> "") ->
    Effect req w r (json (OkBalance b))
      (commit (username_of req)
         (mkPlayer b (history (player_at w (username_of req)))) e
         (snd (enter (username_of req) w)))
| Deleted :
    username_of req <> "" ->
    Effect req w POST_admin_delete_user (json Ok)
      (match players (stored (disk w)) !! username_of req with
       | Some _ =>
           let d := mkData (delete (username_of req)
                              (players (stored (disk w)))) in
           mkWorld (Stored d) d (d :: writes (after_load w))
             (clock w) (ticks w)
       | None => after_load w
       end).

(** A per-player property holds for every record the process can see. *)
Definition world_Forall (P : Player -> Prop) (w : World) : Prop :=
  map_Forall (fun _ : string => P) (players (dataCache w)) /\
  map_Forall (fun _ : string => P) (players (stored (disk w))).

(** The cache mirrors a file that exists and parses. *)
Definition in_sync (w : World) : Prop :=
  dataCache w = stored (disk w) /\ disk w <> NoFile /\ disk w <> Unparseable.

(** No entry of the history has an empty game or an empty desc. *)
Definition labelled (p : Player) : Prop :=
  Forall (fun e => game e <> "" /\ desc e <> "") (history p).

(** The request deletes [username]. *)
Definition deletes (username : string) (rq : Route * Request) : Prop :=
  fst rq = POST_admin_delete_user /\ username_of (snd rq) = username.

(** The request names [username]; the listing names nobody. *)
Definition names (username : string) (rq : Route * Request) : Prop :=
  fst rq <> GET_admin_users /\ username_of (snd rq) = username.



(** What [parseInt] reads digits from: the text after the leading white
    space and one optional sign. *)
Definition unsigned_part (s : string) : string :=
  match Js.trimStart s with
  | EmptyString => EmptyString
  | String c r =>
      if Ascii.eqb c "-" then r
      else if Ascii.eqb c "+" then r
      else String c r
  end.

(** The first character that is not white space is a minus sign. *)
Definition minus_signed (s : string) : bool :=
  match Js.trimStart s with
  | String c _ => Ascii.eqb c "-"
  | EmptyString => false
  end.

(** * Properties *)

(** ** The file and the cache *)

Lemma ensureDataFile_exists (w : World) :
  disk (snd (ensureDataFile w)) <> NoFile.
Proof. destruct w as [f c l k n]; destruct f; cbn; congruence. Qed.

Lemma reload_eq (w : World) : reload w = (tt, after_load w).
Proof. destruct w as [f c l k n]; destruct f; reflexivity. Qed.

Lemma after_load_cache (w : World) :
  dataCache (after_load w) = stored (disk w).
Proof. destruct w as [f c l k n]; destruct f; reflexivity. Qed.

Lemma after_load_stored (w : World) :
  stored (disk (after_load w)) = stored (disk w).
Proof. destruct w as [f c l k n]; destruct f; reflexivity. Qed.

Lemma after_load_clock (w : World) :
  clock (after_load w) = clock w /\ ticks (after_load w) = ticks w.
Proof. destruct w as [f c l k n]; destruct f; split; reflexivity. Qed.

Lemma after_load_Stored (w : World) (d : Data) :
  disk w = Stored d ->
  after_load w = mkWorld (Stored d) d (writes w) (clock w) (ticks w).
Proof. intros H. unfold after_load. now rewrite H. Qed.

(** A world whose cache already mirrors the file is a fixed point of
    reloading, unless the file has to be (re)initialised. *)
Lemma after_load_idem (w : World) : after_load (after_load w) = after_load w.
Proof. destruct w as [f c l k n]; destruct f; reflexivity. Qed.

Lemma saveCache_eq (w : World) :
  saveCache w =
  (tt, mkWorld (Stored (dataCache w)) (dataCache w)
         (dataCache w :: writes w) (clock w) (ticks w)).
Proof. reflexivity. Qed.

Lemma putPlayer_eq (u : string) (p : Player) (w : World) :
  putPlayer u p w =
  (tt, mkWorld (disk w) (mkData (<[u := p]> (players (dataCache w))))
         (writes w) (clock w) (ticks w)).
Proof. reflexivity. Qed.

Lemma getOrCreatePlayer_present (u : string) (p : Player) (w : World) :
  players (dataCache w) !! u = Some p ->
  getOrCreatePlayer u w = (p, w).
Proof.
  intros H. unfold getOrCreatePlayer, bind, getCache. now rewrite H.
Qed.

Lemma getOrCreatePlayer_absent (u : string) (w : World) :
  players (dataCache w) !! u = None ->
  let p := default_player (clock w (ticks w)) in
  let d := mkData (<[u := p]> (players (dataCache w))) in
  getOrCreatePlayer u w =
  (p, mkWorld (Stored d) d (d :: writes w) (clock w) (S (ticks w))).
Proof.
  intros H. unfold getOrCreatePlayer, bind, getCache. now rewrite H.
Qed.

Lemma enter_player (u : string) (w : World) :
  fst (enter u w) = player_at w u.
Proof.
  unfold enter, bind. rewrite reload_eq. unfold player_at.
  destruct (players (stored (disk w)) !! u) as [p|] eqn:E.
  - rewrite (getOrCreatePlayer_present u p); [reflexivity|].
    now rewrite after_load_cache.
  - rewrite getOrCreatePlayer_absent by now rewrite after_load_cache.
    cbn. now destruct (after_load_clock w) as [-> ->].
Qed.

Lemma enter_present (u : string) (p : Player) (w : World) :
  players (stored (disk w)) !! u = Some p ->
  enter u w = (p, after_load w).
Proof.
  intros H. unfold enter, bind. rewrite reload_eq.
  apply getOrCreatePlayer_present. now rewrite after_load_cache.
Qed.

Lemma enter_absent (u : string) (w : World) :
  players (stored (disk w)) !! u = None ->
  let p := default_player (clock w (ticks w)) in
  let d := mkData (<[u := p]> (players (stored (disk w)))) in
  enter u w =
  (p, mkWorld (Stored d) d (d :: writes (after_load w)) (clock w) (S (ticks w))).
Proof.
  intros H. unfold enter, bind. rewrite reload_eq.
  rewrite getOrCreatePlayer_absent by now rewrite after_load_cache.
  rewrite after_load_cache. now destruct (after_load_clock w) as [-> ->].
Qed.

(** In both cases the cache holds the player under its name and nothing
    else has moved. *)
Lemma enter_cache (u : string) (w : World) :
  players (dataCache (snd (enter u w))) =
  <[u := player_at w u]> (players (stored (disk w))).
Proof.
  unfold player_at.
  destruct (players (stored (disk w)) !! u) as [p|] eqn:E.
  - rewrite (enter_present u p) by assumption. cbn.
    rewrite after_load_cache. symmetry. now apply insert_id.
  - rewrite enter_absent by assumption. reflexivity.
Qed.

Lemma enter_bind {A} (u : string) (k : Player -> M A) (w : World) :
  (exec reload; do player <- getOrCreatePlayer u; k player) w =
  k (fst (enter u w)) (snd (enter u w)).
Proof.
  unfold enter, bind. destruct (reload w) as [[] w1].
  now destruct (getOrCreatePlayer u w1).
Qed.

Lemma is_empty_false (s : string) : s <> "" -> Js.is_empty s = false.
Proof. destruct s; [congruence | reflexivity]. Qed.

Lemma is_empty_true (s : string) : Js.is_empty s = true -> s = "".
Proof. destruct s; [reflexivity | discriminate]. Qed.

(** ** What each mutating handler does once validation has passed *)

Section Runs.

Variables (req : Request) (w : World) (u : string).
Hypothesis Hu : username_of req = u.
Hypothesis Hne : u <> "".

Let p := fst (enter u w).
Let w1 := snd (enter u w).

Lemma get_profile_run :
  get_profile req w =
  (json (OkProfile u (balance p)), snd (saveCache w1)).
Proof.
  unfold get_profile. fold (username_of req). rewrite Hu.
  rewrite (is_empty_false u Hne). rewrite enter_bind. reflexivity.
Qed.

Lemma get_admin_user_detail_run :
  get_admin_user_detail req w =
  (json (OkDetail u (balance p) (history p)), snd (saveCache w1)).
Proof.
  unfold get_admin_user_detail. fold (username_of req). rewrite Hu.
  rewrite (is_empty_false u Hne). rewrite enter_bind. reflexivity.
Qed.

Lemma post_profile_save_run (b : Z) :
  parseInteger (r_balance req) = Some b -> 0 <= b ->
  post_profile_save req w =
  (json Ok,
   commit u (mkPlayer b (history p))
     (fun t => mkEntry t "manual-save" 0 "session save") w1).
Proof.
  intros Hb Hpos. unfold post_profile_save. fold (username_of req).
  rewrite Hu, (is_empty_false u Hne), Hb.
  destruct (Z.ltb_spec b 0) as [|_]; [lia|].
  rewrite enter_bind. reflexivity.
Qed.

Lemma post_admin_set_balance_run (b : Z) :
  parseInteger (r_balance req) = Some b -> 0 <= b ->
  post_admin_set_balance req w =
  (json (OkBalance b),
   commit u (mkPlayer b (history p))
     (fun t => mkEntry t "admin-adjust" (b - balance p)
                 (Js.str_or (Js.trim (Js.or_else (r_note req) ""))
                    "admin adjustment")) w1).
Proof.
  intros Hb Hpos. unfold post_admin_set_balance. fold (username_of req).
  rewrite Hu, (is_empty_false u Hne), Hb.
  destruct (Z.ltb_spec b 0) as [|_]; [lia|].
  rewrite enter_bind. reflexivity.
Qed.

Lemma post_game_payout_run (a : Z) :
  parseInteger (r_amount req) = Some a -> 0 < a ->
  post_game_payout req w =
  (json (OkBalance (balance p + a)),
   commit u (mkPlayer (balance p + a) (history p))
     (fun t => mkEntry t
                 (Js.str_or (Js.trim (Js.or_else (r_game req) "")) "unknown")
                 a
                 (Js.str_or (Js.trim (Js.or_else (r_desc req) ""))
                    "game payout")) w1).
Proof.
  intros Ha Hpos. unfold post_game_payout. fold (username_of req).
  rewrite Hu, (is_empty_false u Hne), Ha.
  destruct (Z.leb_spec a 0) as [|_]; [lia|].
  rewrite enter_bind. reflexivity.
Qed.

Lemma post_game_charge_refused (a : Z) :
  parseInteger (r_amount req) = Some a -> 0 < a ->
  balance p - a < 0 ->
  post_game_charge req w = (json (Failure "INSUFFICIENT_FUNDS"), w1).
Proof.
  intros Ha Hpos Hlow. unfold post_game_charge. fold (username_of req).
  rewrite Hu, (is_empty_false u Hne), Ha.
  destruct (Z.leb_spec a 0) as [|_]; [lia|].
  rewrite enter_bind. fold p w1.
  destruct (Z.ltb_spec (balance p - a) 0) as [_|]; [reflexivity | lia].
Qed.

Lemma post_game_charge_accepted (a : Z) :
  parseInteger (r_amount req) = Some a -> 0 < a ->
  0 <= balance p - a ->
  post_game_charge req w =
  (json (OkBalance (balance p - a)),
   commit u (mkPlayer (balance p - a) (history p))
     (fun t => mkEntry t
                 (Js.str_or (Js.trim (Js.or_else (r_game req) "")) "unknown")
                 (- a)
                 (Js.str_or (Js.trim (Js.or_else (r_desc req) ""))
                    "game charge")) w1).
Proof.
  intros Ha Hpos Hfunds. unfold post_game_charge. fold (username_of req).
  rewrite Hu, (is_empty_false u Hne), Ha.
  destruct (Z.leb_spec a 0) as [|_]; [lia|].
  rewrite enter_bind. fold p w1.
  destruct (Z.ltb_spec (balance p - a) 0) as [|_]; [lia | reflexivity].
Qed.

End Runs.

Lemma post_admin_delete_user_run (req : Request) (w : World) (u : string) :
  username_of req = u -> u <> "" ->
  post_admin_delete_user req w =
  (json Ok,
   match players (stored (disk w)) !! u with
   | Some _ =>
       let d := mkData (delete u (players (stored (disk w)))) in
       mkWorld (Stored d) d (d :: writes (after_load w)) (clock w) (ticks w)
   | None => after_load w
   end).
Proof.
  intros Hu Hne. unfold post_admin_delete_user. fold (username_of req).
  rewrite Hu, (is_empty_false u Hne). unfold bind at 1. rewrite reload_eq.
  unfold bind, getCache. rewrite after_load_cache.
  destruct (players (stored (disk w)) !! u); [|reflexivity].
  cbn. now destruct (after_load_clock w) as [-> ->].
Qed.

(** ** What [commit] leaves behind *)

Lemma commit_lookup (u : string) (p : Player) (e : string -> HistoryEntry)
    (w : World) :
  players (dataCache (commit u p e w)) !! u =
  Some (mkPlayer (balance p) (history p ++ [e (clock w (ticks w))])).
Proof. cbn. now rewrite lookup_insert_eq. Qed.

Lemma commit_lookup_ne (u v : string) (p : Player)
    (e : string -> HistoryEntry) (w : World) :
  u <> v ->
  players (dataCache (commit u p e w)) !! v = players (dataCache w) !! v.
Proof. intros H. cbn. now rewrite lookup_insert_ne. Qed.

Lemma commit_disk (u : string) (p : Player) (e : string -> HistoryEntry)
    (w : World) :
  disk (commit u p e w) = Stored (dataCache (commit u p e w)).
Proof. reflexivity. Qed.


Lemma player_at_present (w : World) (u : string) (p : Player) :
  players (stored (disk w)) !! u = Some p -> player_at w u = p.
Proof. intros H. unfold player_at. now rewrite H. Qed.

Lemma player_at_absent (w : World) (u : string) :
  players (stored (disk w)) !! u = None ->
  player_at w u = default_player (clock w (ticks w)).
Proof. intros H. unfold player_at. now rewrite H. Qed.

Lemma enter_lookup (u : string) (w : World) :
  players (dataCache (snd (enter u w))) !! u = Some (player_at w u).
Proof. rewrite enter_cache. apply lookup_insert_eq. Qed.

Lemma enter_lookup_ne (u v : string) (w : World) :
  u <> v ->
  players (dataCache (snd (enter u w))) !! v =
  players (stored (disk w)) !! v.
Proof. intros H. rewrite enter_cache. now apply lookup_insert_ne. Qed.

(** A present username implies a readable file, which [enter] leaves
    alone; an absent one is created and persisted at once. *)
Lemma stored_lookup_Some (w : World) (u : string) (p : Player) :
  players (stored (disk w)) !! u = Some p -> disk w = Stored (stored (disk w)).
Proof.
  destruct (disk w); cbn; try (rewrite lookup_empty; discriminate).
  reflexivity.
Qed.

Lemma enter_present_world (u : string) (p : Player) (w : World) :
  players (stored (disk w)) !! u = Some p ->
  snd (enter u w) =
  mkWorld (disk w) (stored (disk w)) (writes w) (clock w) (ticks w).
Proof.
  intros H. rewrite (enter_present u p) by assumption. cbn.
  pose proof (stored_lookup_Some w u p H) as Hd.
  rewrite (after_load_Stored w _ Hd). now rewrite <- Hd.
Qed.

(** ** Validation *)

Lemma check_Valid (lower : Z) (req : Request) (field : Js.Value) (n : Z) :
  check lower req field = Valid n ->
  username_of req <> "" /\ parseInteger field = Some n /\ lower <= n.
Proof.
  unfold check.
  destruct (username_of req) eqn:E; cbn; [discriminate|].
  destruct (parseInteger field) as [m|]; [|discriminate].
  destruct (Z.ltb_spec m lower); [discriminate|].
  intros [= ->]. repeat split; [congruence | assumption].
Qed.


Lemma post_profile_save_rejects (req : Request) (w : World) :
  match check 0 req (r_balance req) with
  | NoUsername => post_profile_save req w = (bad_request "USERNAME_REQUIRED", w)
  | BadNumber => post_profile_save req w = (bad_request "INVALID_BALANCE", w)
  | Valid _ => True
  end.
Proof.
  unfold check, post_profile_save. fold (username_of req).
  destruct (Js.is_empty (username_of req)); [reflexivity|].
  destruct (parseInteger (r_balance req)) as [b|]; [|reflexivity].
  now destruct (b <? 0).
Qed.

Lemma post_admin_set_balance_rejects (req : Request) (w : World) :
  match check 0 req (r_balance req) with
  | NoUsername =>
      post_admin_set_balance req w = (bad_request "USERNAME_REQUIRED", w)
  | BadNumber =>
      post_admin_set_balance req w = (bad_request "INVALID_BALANCE", w)
  | Valid _ => True
  end.
Proof.
  unfold check, post_admin_set_balance. fold (username_of req).
  destruct (Js.is_empty (username_of req)); [reflexivity|].
  destruct (parseInteger (r_balance req)) as [b|]; [|reflexivity].
  now destruct (b <? 0).
Qed.

Lemma ltb_1_leb_0 (a : Z) : (a <? 1) = (a <=? 0).
Proof. destruct (Z.ltb_spec a 1), (Z.leb_spec a 0); try reflexivity; lia. Qed.

Lemma post_game_charge_rejects (req : Request) (w : World) :
  match check 1 req (r_amount req) with
  | NoUsername => post_game_charge req w = (bad_request "USERNAME_REQUIRED", w)
  | BadNumber => post_game_charge req w = (bad_request "INVALID_AMOUNT", w)
  | Valid _ => True
  end.
Proof.
  unfold check, post_game_charge. fold (username_of req).
  destruct (Js.is_empty (username_of req)); [reflexivity|].
  destruct (parseInteger (r_amount req)) as [a|]; [|reflexivity].
  rewrite ltb_1_leb_0. now destruct (a <=? 0).
Qed.

Lemma post_game_payout_rejects (req : Request) (w : World) :
  match check 1 req (r_amount req) with
  | NoUsername => post_game_payout req w = (bad_request "USERNAME_REQUIRED", w)
  | BadNumber => post_game_payout req w = (bad_request "INVALID_AMOUNT", w)
  | Valid _ => True
  end.
Proof.
  unfold check, post_game_payout. fold (username_of req).
  destruct (Js.is_empty (username_of req)); [reflexivity|].
  destruct (parseInteger (r_amount req)) as [a|]; [|reflexivity].
  rewrite ltb_1_leb_0. now destruct (a <=? 0).
Qed.

(** ** Charge refusal (C1) *)

(** C1, amended.  For an ordinary username and an amount that
    [parseInt] returns exactly: a charge of a strictly positive amount
    that exceeds the player's balance is refused with INSUFFICIENT_FUNDS.
    When the username was already in the store, the store is left as
    loaded, the file is not written and the clock is not read.  When the
    username was absent, [getOrCreatePlayer] has already created the
    default profile and persisted it: the store gains exactly that record
    (balance 1000, the single system entry) and the file holds the
    enlarged store; no charge entry is appended and nothing is debited. *)
Theorem charge_refusal_effect (req : Request) (w : World) (u : string) (a : Z) :
  username_of req = u -> u <> "" -> ordinary u = true ->
  parseInteger (r_amount req) = Some a -> 0 < a -> a <= max_exact ->
  balance (player_at w u) - a < 0 ->
  let resp := fst (post_game_charge req w) in
  let w' := snd (post_game_charge req w) in
  resp = json (Failure "INSUFFICIENT_FUNDS") /\
  (forall p, players (stored (disk w)) !! u = Some p ->
     dataCache w' = stored (disk w) /\ disk w' = disk w /\
     writes w' = writes w /\ ticks w' = ticks w) /\
  (players (stored (disk w)) !! u = None ->
     let d := mkData (<[u := default_player (clock w (ticks w))]>
                        (players (stored (disk w)))) in
     dataCache w' = d /\ disk w' = Stored d /\
     writes w' = d :: writes (after_load w)).
Proof.
  intros Hu Hne _ Ha Hpos _ Hlow. cbn zeta.
  rewrite (post_game_charge_refused req w u Hu Hne a Ha Hpos)
    by now rewrite enter_player.
  cbn [fst snd]. split; [reflexivity|]. split.
  - intros p Hp. rewrite (enter_present_world u p w Hp). cbn. tauto.
  - intros Habs. rewrite (enter_absent u w Habs). cbn. tauto.
Qed.

Lemma charge_refusal_effect_witness :
  let req := request "alice" "1001" in
  fst (post_game_charge req alice_world) = json (Failure "INSUFFICIENT_FUNDS") /\
  dataCache (snd (post_game_charge req alice_world)) = alice_data /\
  writes (snd (post_game_charge req alice_world)) = [].
Proof.
  pose proof (charge_refusal_effect (request "alice" "1001") alice_world
                "alice" 1001 eq_refl ltac:(discriminate) eq_refl eq_refl
                ltac:(lia) ltac:(vm_compute; discriminate)
                ltac:(vm_compute; reflexivity)) as H.
  cbn zeta in H. destruct H as [Hr [Hp _]].
  destruct (Hp (default_player "2024-04-30T08:00:00.000Z") eq_refl)
    as [Hc [_ [Hw _]]].
  cbn zeta. repeat split; assumption.
Defined.

(** C1 as stated fails for a username that is not yet in the store: the
    charge of 1001 for the unknown [bob] is refused, yet the store has
    gained [bob] and the file has been written. *)
Lemma charge_refusal_creates_absent_player :
  let req := request "bob" "1001" in
  let w' := snd (post_game_charge req fresh_world) in
  players (stored (disk fresh_world)) !! "bob" = None /\
  fst (post_game_charge req fresh_world) = json (Failure "INSUFFICIENT_FUNDS") /\
  players (dataCache w') !! "bob" =
    Some (default_player "2024-05-01T12:00:00.000Z") /\
  dataCache w' <> stored (disk fresh_world) /\
  disk w' <> disk fresh_world /\
  writes w' <> writes fresh_world.
Proof.
  cbn zeta. repeat split; try (vm_compute; reflexivity).
  - intros H. apply (f_equal (fun d => players d !! "bob")) in H.
    vm_compute in H. discriminate.
  - intros H. apply (f_equal (fun f => players (stored f) !! "bob")) in H.
    vm_compute in H. discriminate.
  - intros H. apply (f_equal (@length Data)) in H.
    vm_compute in H. discriminate.
Qed.

(** ** Lazy creation *)

(** X20.  For an ordinary username that the store does not hold,
    [getOrCreatePlayer] creates a record with balance 1000 and a history
    of exactly one entry, whose game is "system", delta 0 and desc
    "auto-created profile"; the store maps the username to that record
    and the file holds the store.  (For the names of [inherited_names]
    the lookup of line 37 finds an inherited property and nothing is
    created.) *)
Theorem new_player_is_default (w : World) (u : string) :
  ordinary u = true ->
  players (dataCache w) !! u = None ->
  let p := fst (getOrCreatePlayer u w) in
  let w' := snd (getOrCreatePlayer u w) in
  balance p = 1000 /\
  length (history p) = 1%nat /\
  (exists e, history p = [e] /\ game e = "system" /\ delta e = 0 /\
             desc e = "auto-created profile") /\
  players (dataCache w') !! u = Some p /\
  disk w' = Stored (dataCache w').
Proof.
  intros _ H. cbn zeta. rewrite (getOrCreatePlayer_absent u w H). cbn.
  repeat split.
  - eexists. repeat split.
  - apply lookup_insert_eq.
Qed.

Lemma new_player_is_default_witness :
  balance (fst (getOrCreatePlayer "alice" fresh_world)) = 1000 /\
  length (history (fst (getOrCreatePlayer "alice" fresh_world))) = 1%nat.
Proof.
  pose proof (new_player_is_default fresh_world "alice" eq_refl eq_refl) as H.
  cbn zeta in H. destruct H as [Hb [Hl _]]. split; assumption.
Defined.

(** ** User detail *)

(** X21.  GET /api/admin/user-detail for an ordinary username the store
    does not hold creates the default record, leaves it in the store and
    in the backing file, and returns it with its history; for a username
    the store holds it returns the record as it is and leaves the store
    as it was.  (For the names of [inherited_names] nothing is created
    and the response carries no record.) *)
Theorem user_detail_provisions (req : Request) (w : World) (u : string) :
  username_of req = u -> u <> "" -> ordinary u = true ->
  let resp := fst (get_admin_user_detail req w) in
  let w' := snd (get_admin_user_detail req w) in
  (players (stored (disk w)) !! u = None ->
     let p := default_player (clock w (ticks w)) in
     resp = json (OkDetail u (balance p) (history p)) /\
     players (dataCache w') = <[u := p]> (players (stored (disk w))) /\
     disk w' = Stored (dataCache w')) /\
  (forall p, players (stored (disk w)) !! u = Some p ->
     resp = json (OkDetail u (balance p) (history p)) /\
     dataCache w' = stored (disk w) /\
     disk w' = Stored (stored (disk w))).
Proof.
  intros Hu Hne _. cbn zeta.
  rewrite (get_admin_user_detail_run req w u Hu Hne). cbn [fst snd].
  split.
  - intros Habs. rewrite (enter_absent u w Habs). cbn. tauto.
  - intros p Hp. rewrite (enter_present_world u p w Hp).
    rewrite (enter_present u p w Hp). cbn. tauto.
Qed.

Lemma user_detail_provisions_witness :
  fst (get_admin_user_detail (request "bob" "") fresh_world) =
    json (OkDetail "bob" 1000
            [mkEntry "2024-05-01T12:00:00.000Z" "system" 0
               "auto-created profile"]) /\
  fst (get_admin_user_detail (request "alice" "") alice_world) =
    json (OkDetail "alice" 1000
            [mkEntry "2024-04-30T08:00:00.000Z" "system" 0
               "auto-created profile"]).
Proof.
  split.
  - pose proof (user_detail_provisions (request "bob" "") fresh_world "bob"
                  eq_refl ltac:(discriminate) eq_refl) as H.
    cbn zeta in H. destruct H as [H _]. destruct (H eq_refl) as [Hr _].
    exact Hr.
  - pose proof (user_detail_provisions (request "alice" "") alice_world
                  "alice" eq_refl ltac:(discriminate) eq_refl) as H.
    cbn zeta in H. destruct H as [_ H].
    destruct (H (default_player "2024-04-30T08:00:00.000Z") eq_refl)
      as [Hr _].
    exact Hr.
Defined.

(** ** Deletion *)

(** X22.  POST /api/admin/delete-user, sent twice in a row for the same
    ordinary username, answers [{ ok: true }] both times; after the first
    call the username is gone from the store and the file, the second
    call changes nothing, the other players are untouched, and the next
    request that fetches the username gets, and leaves in the file, a
    fresh default profile: balance 1000 and the single system entry,
    whatever history the deleted record had.  (For the names of
    [inherited_names] each delete rewrites the file and nothing is
    created afterwards.) *)
Theorem delete_is_idempotent (req : Request) (w : World) (u : string) :
  username_of req = u -> u <> "" -> ordinary u = true ->
  let r1 := fst (post_admin_delete_user req w) in
  let w1 := snd (post_admin_delete_user req w) in
  let r2 := fst (post_admin_delete_user req w1) in
  let w2 := snd (post_admin_delete_user req w1) in
  r1 = json Ok /\ r2 = json Ok /\
  players (dataCache w1) !! u = None /\
  players (stored (disk w1)) !! u = None /\
  (forall v, v <> u ->
     players (stored (disk w1)) !! v = players (stored (disk w)) !! v) /\
  w2 = w1 /\
  fst (get_admin_user_detail req w2) =
    json (OkDetail u 1000
            [mkEntry (clock w2 (ticks w2)) "system" 0 "auto-created profile"]) /\
  fst (get_profile req w2) = json (OkProfile u 1000) /\
  players (stored (disk (snd (get_admin_user_detail req w2)))) !! u =
    Some (default_player (clock w2 (ticks w2))) /\
  players (stored (disk (snd (get_profile req w2)))) !! u =
    Some (default_player (clock w2 (ticks w2))).
Proof.
  intros Hu Hne _. cbn zeta.
  rewrite (post_admin_delete_user_run req w u Hu Hne). cbn [fst snd].
  set (w1 := match players (stored (disk w)) !! u with
             | Some _ => _ | None => _ end).
  assert (Hc : players (dataCache w1) !! u = None).
  { subst w1. destruct (players (stored (disk w)) !! u) eqn:E; cbn.
    - apply lookup_delete_eq.
    - now rewrite after_load_cache. }
  assert (Hd : players (stored (disk w1)) !! u = None).
  { subst w1. destruct (players (stored (disk w)) !! u) eqn:E; cbn.
    - apply lookup_delete_eq.
    - now rewrite after_load_stored. }
  assert (Hl : after_load w1 = w1).
  { subst w1. destruct (players (stored (disk w)) !! u) eqn:E.
    - reflexivity.
    - apply after_load_idem. }
  rewrite (post_admin_delete_user_run req w1 u Hu Hne). cbn [fst snd].
  rewrite Hd, Hl.
  rewrite (get_admin_user_detail_run req w1 u Hu Hne).
  rewrite (get_profile_run req w1 u Hu Hne). cbn [fst snd].
  rewrite saveCache_eq. cbn [snd disk stored].
  rewrite enter_lookup, enter_player, (player_at_absent w1 u Hd).
  repeat split; try assumption; try reflexivity.
  intros v Hv. subst w1.
  destruct (players (stored (disk w)) !! u) eqn:E; cbn.
  - now apply lookup_delete_ne.
  - now rewrite after_load_stored.
Qed.

Lemma delete_is_idempotent_witness :
  let req := request "alice" "" in
  let w1 := snd (post_admin_delete_user req alice_world) in
  fst (post_admin_delete_user req alice_world) = json Ok /\
  fst (post_admin_delete_user req w1) = json Ok /\
  snd (post_admin_delete_user req w1) = w1.
Proof.
  pose proof (delete_is_idempotent (request "alice" "") alice_world "alice"
                eq_refl ltac:(discriminate) eq_refl) as H.
  cbn zeta in H. destruct H as [H1 [H2 [_ [_ [_ [H3 _]]]]]].
  cbn zeta. repeat split; assumption.
Defined.

(** ** Administrative override *)

(** X23.  POST /api/admin/set-balance for an ordinary username, with a
    non-negative integer that [parseInt] returns exactly and whose
    difference to the current balance is exact too, appends one entry
    whose game is "admin-adjust", whose delta is the new balance minus
    the balance the player had when the call began, and whose desc is the
    note (or "admin adjustment"); afterwards the balance is the new
    balance, in the store and in the file, and the response carries it.
    (For the names of [inherited_names] the handler throws before it
    appends anything.) *)
Theorem set_balance_records_delta (req : Request) (w : World) (u : string)
    (b : Z) :
  username_of req = u -> u <> "" -> ordinary u = true ->
  parseInteger (r_balance req) = Some b -> 0 <= b -> b <= max_exact ->
  safe (b - balance (player_at w u)) ->
  let before := player_at w u in
  let resp := fst (post_admin_set_balance req w) in
  let w' := snd (post_admin_set_balance req w) in
  exists e,
    resp = json (OkBalance b) /\
    players (dataCache w') !! u = Some (mkPlayer b (history before ++ [e])) /\
    disk w' = Stored (dataCache w') /\
    game e = "admin-adjust" /\
    delta e = b - balance before /\
    desc e = Js.str_or (Js.trim (Js.or_else (r_note req) "")) "admin adjustment".
Proof.
  intros Hu Hne _ Hb Hpos _ _. cbn zeta.
  rewrite (post_admin_set_balance_run req w u Hu Hne b Hb Hpos).
  cbn [fst snd]. rewrite commit_lookup, enter_player.
  eexists. split; [reflexivity|]. split; [reflexivity|].
  split; [apply commit_disk|]. cbn. repeat split.
Qed.

(** Setting 1500 on a player at balance 1000 records a delta of 500. *)
Lemma set_balance_records_delta_witness :
  balance (player_at alice_world "alice") = 1000 /\
  exists e : HistoryEntry,
    history_of (dataCache (snd (post_admin_set_balance
                                  (request "alice" "1500") alice_world)))
      "alice" = history (player_at alice_world "alice") ++ [e] /\
    delta e = 500.
Proof.
  split; [reflexivity|].
  destruct (set_balance_records_delta (request "alice" "1500") alice_world
              "alice" 1500 eq_refl ltac:(discriminate) eq_refl eq_refl
              ltac:(lia) ltac:(vm_compute; discriminate)
              ltac:(split; vm_compute; discriminate))
    as [e [_ [Hl [_ [_ [Hd _]]]]]].
  exists e. split.
  - unfold history_of. rewrite Hl. reflexivity.
  - rewrite Hd. reflexivity.
Defined.

(** ** History is append-only (C4) *)

Lemma commit_history (u : string) (p : Player) (e : string -> HistoryEntry)
    (w : World) :
  history_of (dataCache (commit u p e w)) u =
  history p ++ [e (clock w (ticks w))].
Proof. unfold history_of. now rewrite commit_lookup. Qed.

(** Relative to the record that [getOrCreatePlayer] hands out, a
    successful mutation pushes exactly one entry and persists. *)
Lemma mutation_appends (r : Route) (req : Request) (w : World) :
  mutating r = true ->
  succeeded (fst (handle r req w)) = true ->
  exists e,
    history_of (dataCache (snd (handle r req w))) (username_of req) =
      history (player_at w (username_of req)) ++ [e] /\
    disk (snd (handle r req w)) = Stored (dataCache (snd (handle r req w))).
Proof.
  intros Hm Hs. destruct r; try discriminate; cbn [handle] in *.
  - pose proof (post_profile_save_rejects req w) as Hr.
    destruct (check 0 req (r_balance req)) as [| |b] eqn:E;
      try (rewrite Hr in Hs; discriminate).
    apply check_Valid in E as (Hne & Hb & Hpos).
    rewrite (post_profile_save_run req w _ eq_refl Hne b Hb Hpos).
    cbn [fst snd]. rewrite commit_history, enter_player.
    eexists. split; [reflexivity | apply commit_disk].
  - pose proof (post_game_charge_rejects req w) as Hr.
    destruct (check 1 req (r_amount req)) as [| |a] eqn:E;
      try (rewrite Hr in Hs; discriminate).
    apply check_Valid in E as (Hne & Ha & Hpos).
    destruct (Z.lt_ge_cases (balance (fst (enter (username_of req) w)) - a) 0)
      as [Hlow|Hfunds].
    + rewrite (post_game_charge_refused req w _ eq_refl Hne a Ha) in Hs
        by (assumption || lia).
      discriminate.
    + rewrite (post_game_charge_accepted req w _ eq_refl Hne a Ha)
        by (assumption || lia).
      cbn [fst snd]. rewrite commit_history, enter_player.
      eexists. split; [reflexivity | apply commit_disk].
  - pose proof (post_game_payout_rejects req w) as Hr.
    destruct (check 1 req (r_amount req)) as [| |a] eqn:E;
      try (rewrite Hr in Hs; discriminate).
    apply check_Valid in E as (Hne & Ha & Hpos).
    rewrite (post_game_payout_run req w _ eq_refl Hne a Ha) by lia.
    cbn [fst snd]. rewrite commit_history, enter_player.
    eexists. split; [reflexivity | apply commit_disk].
  - pose proof (post_admin_set_balance_rejects req w) as Hr.
    destruct (check 0 req (r_balance req)) as [| |b] eqn:E;
      try (rewrite Hr in Hs; discriminate).
    apply check_Valid in E as (Hne & Hb & Hpos).
    rewrite (post_admin_set_balance_run req w _ eq_refl Hne b Hb Hpos).
    cbn [fst snd]. rewrite commit_history, enter_player.
    eexists. split; [reflexivity | apply commit_disk].
Qed.

(** C4, amended.  A successful save, charge, payout or admin set-balance
    on a username that the store already holds leaves the stored history
    one entry longer: the earlier entries, unaltered and in order,
    followed by the entry of the call.  On a username that the store does
    not hold yet, the call first creates the default profile, so the
    history afterwards has two entries: the system entry, then the entry
    of the call.  In both cases the new store is the one in the file. *)
Theorem history_is_append_only (r : Route) (req : Request) (w : World) :
  mutating r = true ->
  succeeded (fst (handle r req w)) = true ->
  let u := username_of req in
  let w' := snd (handle r req w) in
  exists e,
    disk w' = Stored (dataCache w') /\
    (forall p, players (stored (disk w)) !! u = Some p ->
       history_of (stored (disk w')) u = history_of (stored (disk w)) u ++ [e] /\
       length (history_of (stored (disk w')) u) =
         S (length (history_of (stored (disk w)) u))) /\
    (players (stored (disk w)) !! u = None ->
       history_of (stored (disk w')) u =
         [mkEntry (clock w (ticks w)) "system" 0 "auto-created profile"; e]).
Proof.
  intros Hm Hs. cbn zeta.
  destruct (mutation_appends r req w Hm Hs) as [e [He Hd]].
  exists e. split; [exact Hd|]. rewrite Hd. cbn [stored]. split.
  - intros p Hp. rewrite He, (player_at_present _ _ _ Hp).
    unfold history_of. rewrite Hp. split; [reflexivity|].
    rewrite length_app. cbn. lia.
  - intros Habs. rewrite He, (player_at_absent _ _ Habs). reflexivity.
Qed.

Lemma history_is_append_only_witness :
  exists e : HistoryEntry,
    history_of
      (stored (disk (snd (handle POST_game_payout (request "alice" "50")
                            alice_world)))) "alice" =
    history_of (stored (disk alice_world)) "alice" ++ [e].
Proof.
  destruct (history_is_append_only POST_game_payout (request "alice" "50")
              alice_world eq_refl eq_refl) as [e [_ [H _]]].
  exists e.
  exact (proj1 (H (default_player "2024-04-30T08:00:00.000Z") eq_refl)).
Defined.

(** C4 as stated fails for a username that is not yet in the store: the
    first save for the unknown [bob] succeeds and leaves two entries where
    there was none. *)
Lemma first_mutation_appends_two_entries :
  let req := request "bob" "5" in
  let w' := snd (handle POST_profile_save req fresh_world) in
  mutating POST_profile_save = true /\
  succeeded (fst (handle POST_profile_save req fresh_world)) = true /\
  length (history_of (stored (disk fresh_world)) "bob") = 0%nat /\
  length (history_of (stored (disk w')) "bob") = 2%nat /\
  length (history_of (stored (disk w')) "bob") <>
    S (length (history_of (stored (disk fresh_world)) "bob")).
Proof.
  cbn zeta. repeat split; try (vm_compute; reflexivity).
  vm_compute. discriminate.
Qed.

(** ** Balances never go negative (C3) *)











Lemma serve_cons (r : Route) (q : Request) (rest : list (Route * Request))
    (w : World) :
  serve ((r, q) :: rest) w =
  (fst (handle r q w) :: fst (serve rest (snd (handle r q w))),
   snd (serve rest (snd (handle r q w)))).
Proof.
  cbn [serve]. unfold bind, ret. destruct (handle r q w) as [resp w1].
  cbn [fst snd]. now destruct (serve rest w1).
Qed.

Lemma enter_stored_lookup (u : string) (w : World) :
  players (stored (disk (snd (enter u w)))) !! u = Some (player_at w u).
Proof.
  destruct (players (stored (disk w)) !! u) as [p|] eqn:E.
  - rewrite (enter_present_world u p w E), (player_at_present w u p E).
    exact E.
  - rewrite (enter_absent u w E), (player_at_absent w u E). cbn.
    apply lookup_insert_eq.
Qed.




(** ** The example scenario (C7) *)

Lemma commit_stored_balance (u : string) (p : Player)
    (e : string -> HistoryEntry) (w : World) :
  stored_balance (commit u p e w) u = Some (balance p).
Proof.
  unfold stored_balance. rewrite commit_disk. cbn [stored].
  now rewrite commit_lookup.
Qed.

Lemma player_at_balance (w : World) (u : string) (b : Z) :
  stored_balance w u = Some b -> balance (player_at w u) = b.
Proof.
  unfold stored_balance, player_at.
  destruct (players (stored (disk w)) !! u); cbn; congruence.
Qed.

(** C7.  From any world whose store does not hold "alice": a charge of
    200 answers balance 800, a payout of 50 then answers balance 850, and
    a charge of 1000 is then refused with INSUFFICIENT_FUNDS; the file
    holds 800, 850 and still 850 after the three requests. *)
Theorem alice_scenario (w : World) :
  players (stored (disk w)) !! "alice" = None ->
  let w1 := snd (post_game_charge (request "alice" "200") w) in
  let w2 := snd (post_game_payout (request "alice" "50") w1) in
  let w3 := snd (post_game_charge (request "alice" "1000") w2) in
  fst (serve [(POST_game_charge, request "alice" "200");
              (POST_game_payout, request "alice" "50");
              (POST_game_charge, request "alice" "1000")] w) =
    [json (OkBalance 800); json (OkBalance 850);
     json (Failure "INSUFFICIENT_FUNDS")] /\
  snd (serve [(POST_game_charge, request "alice" "200");
              (POST_game_payout, request "alice" "50");
              (POST_game_charge, request "alice" "1000")] w) = w3 /\
  stored_balance w1 "alice" = Some 800 /\
  stored_balance w2 "alice" = Some 850 /\
  stored_balance w3 "alice" = Some 850.
Proof.
  intros Habs. cbn zeta.
  assert (Hne : "alice" <> "") by discriminate.
  remember (post_game_charge (request "alice" "200") w) as s1 eqn:E1.
  remember (post_game_payout (request "alice" "50") (snd s1)) as s2 eqn:E2.
  remember (post_game_charge (request "alice" "1000") (snd s2)) as s3 eqn:E3.
  (* first charge: 1000 - 200 *)
  pose proof (post_game_charge_accepted (request "alice" "200") w "alice"
                eq_refl Hne 200 eq_refl ltac:(lia)) as H1.
  rewrite enter_player, (player_at_absent w "alice" Habs) in H1.
  specialize (H1 ltac:(cbn; lia)). cbn [balance default_player] in H1.
  change (1000 - 200) with 800 in H1. rewrite <- E1 in H1.
  assert (B1 : stored_balance (snd s1) "alice" = Some 800).
  { rewrite H1. cbn [snd]. apply commit_stored_balance. }
  (* payout: 800 + 50 *)
  pose proof (post_game_payout_run (request "alice" "50") (snd s1) "alice"
                eq_refl Hne 50 eq_refl ltac:(lia)) as H2.
  rewrite enter_player, (player_at_balance _ "alice" 800 B1) in H2.
  change (800 + 50) with 850 in H2. rewrite <- E2 in H2.
  assert (B2 : stored_balance (snd s2) "alice" = Some 850).
  { rewrite H2. cbn [snd]. apply commit_stored_balance. }
  (* second charge: 850 - 1000 < 0 *)
  pose proof (post_game_charge_refused (request "alice" "1000") (snd s2)
                "alice" eq_refl Hne 1000 eq_refl ltac:(lia)) as H3.
  rewrite enter_player, (player_at_balance _ "alice" 850 B2) in H3.
  specialize (H3 ltac:(lia)). rewrite <- E3 in H3.
  assert (B3 : stored_balance (snd s3) "alice" = Some 850).
  { destruct (players (stored (disk (snd s2))) !! "alice") as [p|] eqn:E.
    - rewrite H3. cbn [snd].
      rewrite (enter_present_world "alice" p (snd s2) E).
      unfold stored_balance in *. cbn [disk]. exact B2.
    - unfold stored_balance in B2. rewrite E in B2. discriminate. }
  rewrite !serve_cons. cbn [serve handle ret fst snd].
  rewrite <- E1, <- E2, <- E3.
  repeat split; try assumption.
  now rewrite H1, H2, H3.
Qed.

Lemma alice_scenario_witness :
  players (stored (disk fresh_world)) !! "alice" = None /\
  fst (serve [(POST_game_charge, request "alice" "200");
              (POST_game_payout, request "alice" "50");
              (POST_game_charge, request "alice" "1000")] fresh_world) =
    [json (OkBalance 800); json (OkBalance 850);
     json (Failure "INSUFFICIENT_FUNDS")].
Proof.
  split; [reflexivity|].
  exact (proj1 (alice_scenario fresh_world eq_refl)).
Defined.

(** ** Status classes of charge and payout (C8) *)

Lemma amount_invalid_check (req : Request) :
  amount_invalid req ->
  check 1 req (r_amount req) =
  if Js.is_empty (username_of req) then NoUsername else BadNumber.
Proof.
  unfold check. intros [H | (a & H & Ha)]; rewrite H.
  - reflexivity.
  - destruct (Z.ltb_spec a 1); [reflexivity | lia].
Qed.

(** The responses a charge or a payout can send. *)
Lemma charge_payout_responses (r : Route) (req : Request) (w : World) :
  r = POST_game_charge \/ r = POST_game_payout ->
  let resp := fst (handle r req w) in
  resp = bad_request "USERNAME_REQUIRED" \/
  resp = bad_request "INVALID_AMOUNT" \/
  (r = POST_game_charge /\ resp = json (Failure "INSUFFICIENT_FUNDS")) \/
  exists b, resp = json (OkBalance b).
Proof.
  intros [-> | ->]; cbn [handle]; cbn zeta.
  - pose proof (post_game_charge_rejects req w) as Hr.
    destruct (check 1 req (r_amount req)) as [| |a] eqn:E;
      try (rewrite Hr; cbn; tauto).
    apply check_Valid in E as (Hne & Ha & Hpos).
    destruct (Z.lt_ge_cases (balance (fst (enter (username_of req) w)) - a) 0)
      as [Hlow|Hfunds].
    + rewrite (post_game_charge_refused req w _ eq_refl Hne a Ha)
        by (assumption || lia).
      cbn. tauto.
    + rewrite (post_game_charge_accepted req w _ eq_refl Hne a Ha)
        by (assumption || lia).
      cbn. right. right. right. eexists. reflexivity.
  - pose proof (post_game_payout_rejects req w) as Hr.
    destruct (check 1 req (r_amount req)) as [| |a] eqn:E;
      try (rewrite Hr; cbn; tauto).
    apply check_Valid in E as (Hne & Ha & Hpos).
    rewrite (post_game_payout_run req w _ eq_refl Hne a Ha) by lia.
    cbn. right. right. right. eexists. reflexivity.
Qed.

(** C8, amended.  For a charge or a payout whose amount does not parse
    or is not strictly positive, the response has status 400 and nothing
    changes; its error is INVALID_AMOUNT when the username is non-empty
    after trimming, and USERNAME_REQUIRED (checked first) when it is
    empty.  An insufficient-funds refusal only comes from a charge, has
    status 200 and the payload [{ ok: false, error: "INSUFFICIENT_FUNDS" }],
    and is what a valid charge above the balance gets (for an ordinary
    username and an amount that [parseInt] returns exactly).  A response
    with status 400 is never an insufficient-funds refusal. *)
Theorem validation_and_refusal_statuses (r : Route) (req : Request) (w : World) :
  r = POST_game_charge \/ r = POST_game_payout ->
  let resp := fst (handle r req w) in
  let w' := snd (handle r req w) in
  (amount_invalid req ->
     status resp = 400 /\ w' = w /\
     body resp =
       Failure (if Js.is_empty (username_of req)
                then "USERNAME_REQUIRED" else "INVALID_AMOUNT")) /\
  (body resp = Failure "INSUFFICIENT_FUNDS" ->
     status resp = 200 /\ r = POST_game_charge) /\
  (status resp = 400 ->
     body resp = Failure "USERNAME_REQUIRED" \/
     body resp = Failure "INVALID_AMOUNT") /\
  (forall a, r = POST_game_charge ->
     username_of req <> "" -> ordinary (username_of req) = true ->
     parseInteger (r_amount req) = Some a -> 0 < a -> a <= max_exact ->
     balance (player_at w (username_of req)) - a < 0 ->
     resp = mkResponse 200 (Failure "INSUFFICIENT_FUNDS")).
Proof.
  intros Hr. cbn zeta. split; [|split; [|split]].
  - intros Hbad. pose proof (amount_invalid_check req Hbad) as Hc.
    destruct Hr as [-> | ->]; cbn [handle].
    + pose proof (post_game_charge_rejects req w) as H. rewrite Hc in H.
      destruct (Js.is_empty (username_of req)); rewrite H; cbn; tauto.
    + pose proof (post_game_payout_rejects req w) as H. rewrite Hc in H.
      destruct (Js.is_empty (username_of req)); rewrite H; cbn; tauto.
  - intros Hb.
    destruct (charge_payout_responses r req w Hr)
      as [H | [H | [[Hc H] | [b H]]]]; cbn zeta in H; rewrite H in Hb |- *;
      cbn in Hb |- *; try discriminate.
    split; [reflexivity | assumption].
  - intros Hs.
    destruct (charge_payout_responses r req w Hr)
      as [H | [H | [[Hc H] | [b H]]]]; cbn zeta in H; rewrite H in Hs |- *;
      cbn in Hs |- *; try discriminate; tauto.
  - intros a -> Hne _ Ha Hpos _ Hlow. cbn [handle].
    rewrite (post_game_charge_refused req w _ eq_refl Hne a Ha Hpos)
      by now rewrite enter_player.
    reflexivity.
Qed.

Lemma validation_and_refusal_statuses_witness :
  amount_invalid (request "alice" "0") /\
  fst (handle POST_game_charge (request "alice" "0") alice_world) =
    mkResponse 400 (Failure "INVALID_AMOUNT") /\
  fst (handle POST_game_charge (request "alice" "1001") alice_world) =
    mkResponse 200 (Failure "INSUFFICIENT_FUNDS").
Proof.
  assert (Hbad : amount_invalid (request "alice" "0")).
  { right. exists 0. split; [reflexivity | lia]. }
  pose proof (validation_and_refusal_statuses POST_game_charge
                (request "alice" "0") alice_world (or_introl eq_refl)) as H0.
  pose proof (validation_and_refusal_statuses POST_game_charge
                (request "alice" "1001") alice_world (or_introl eq_refl)) as H1.
  cbn zeta in H0, H1.
  destruct H0 as [H0 _]. destruct (H0 Hbad) as (Hs & _ & Hb).
  destruct H1 as (_ & _ & _ & H1).
  split; [exact Hbad|]. split.
  - destruct (fst (handle POST_game_charge (request "alice" "0") alice_world))
      as [st bd]. cbn in Hs, Hb. now rewrite Hs, Hb.
  - apply (H1 1001); try reflexivity; try discriminate; try lia.
Defined.

(** C8 as stated fails when the username is blank: the amount "abc" does
    not parse, but the response names USERNAME_REQUIRED, not
    INVALID_AMOUNT. *)
Lemma blank_username_masks_invalid_amount :
  let req := request "   " "abc" in
  parseInteger (r_amount req) = None /\
  fst (handle POST_game_charge req fresh_world) =
    mkResponse 400 (Failure "USERNAME_REQUIRED") /\
  fst (handle POST_game_payout req fresh_world) =
    mkResponse 400 (Failure "USERNAME_REQUIRED") /\
  body (fst (handle POST_game_charge req fresh_world)) <>
    Failure "INVALID_AMOUNT".
Proof.
  cbn zeta. repeat split; try (vm_compute; reflexivity).
  vm_compute. discriminate.
Qed.

(** ** Numeric validation (C10) *)








Section NumericValidation.

Variables (req : Request) (w : World) (s : string).
Hypothesis Hne : username_of req <> "".





End NumericValidation.




(** * Further properties *)

(** ** Every run of a handler is one of the effects *)

Lemma str_or_nonempty (s d : string) : d <> "" -> Js.str_or s d <> "".
Proof. intros Hd. destruct s; [exact Hd | discriminate]. Qed.

Lemma check_BadNumber_username (lower : Z) (req : Request)
    (field : Js.Value) :
  check lower req field = BadNumber -> username_of req <> "".
Proof.
  unfold check. destruct (username_of req); cbn; [discriminate|].
  discriminate.
Qed.

Lemma check_NoUsername (lower : Z) (req : Request) (field : Js.Value) :
  check lower req field = NoUsername -> username_of req = "".
Proof.
  unfold check. destruct (Js.is_empty (username_of req)) eqn:E.
  - intros _. now apply is_empty_true.
  - destruct (parseInteger field) as [n|]; [|discriminate].
    destruct (n <? lower); discriminate.
Qed.

Lemma get_admin_users_run (req : Request) (w : World) :
  get_admin_users req w =
  (json (OkUsers (map (fun e : string * Player => (fst e, balance (snd e)))
                    (map_to_list (players (stored (disk w)))))),
   after_load w).
Proof.
  unfold get_admin_users, bind. rewrite reload_eq. unfold getCache, ret.
  now rewrite after_load_cache.
Qed.

Lemma handle_effect (r : Route) (req : Request) (w : World) :
  Effect req w r (fst (handle r req w)) (snd (handle r req w)).
Proof.
  destruct r; cbn [handle].
  - destruct (username_of req) as [|c s] eqn:E.
    + unfold get_profile. fold (username_of req). rewrite E. cbn.
      now apply Rejected_username.
    + rewrite (get_profile_run req w _ E) by discriminate. cbn [fst snd].
      rewrite enter_player, <- E. apply Read_profile. rewrite E. discriminate.
  - pose proof (post_profile_save_rejects req w) as Hr.
    destruct (check 0 req (r_balance req)) as [| |b] eqn:E.
    + rewrite Hr. apply Rejected_username; [discriminate|].
      exact (check_NoUsername _ _ _ E).
    + rewrite Hr. apply Rejected_balance; [now left|].
      exact (check_BadNumber_username _ _ _ E).
    + apply check_Valid in E as (Hne & Hb & Hpos).
      rewrite (post_profile_save_run req w _ eq_refl Hne b Hb Hpos).
      cbn [fst snd]. rewrite enter_player. now apply Saved.
  - pose proof (post_game_charge_rejects req w) as Hr.
    destruct (check 1 req (r_amount req)) as [| |a] eqn:E.
    + rewrite Hr. apply Rejected_username; [discriminate|].
      exact (check_NoUsername _ _ _ E).
    + rewrite Hr. apply Rejected_amount; [now left|].
      exact (check_BadNumber_username _ _ _ E).
    + apply check_Valid in E as (Hne & Ha & Hpos).
      destruct (Z.lt_ge_cases
                  (balance (fst (enter (username_of req) w)) - a) 0)
        as [Hlow|Hfunds].
      * rewrite (post_game_charge_refused req w _ eq_refl Hne a Ha)
          by (assumption || lia).
        now apply Refused.
      * rewrite (post_game_charge_accepted req w _ eq_refl Hne a Ha)
          by (assumption || lia).
        cbn [fst snd]. rewrite enter_player.
        apply Adjusted; [tauto | assumption |].
        intros t. cbn. repeat split; try lia;
          first [discriminate | now apply str_or_nonempty].
  - pose proof (post_game_payout_rejects req w) as Hr.
    destruct (check 1 req (r_amount req)) as [| |a] eqn:E.
    + rewrite Hr. apply Rejected_username; [discriminate|].
      exact (check_NoUsername _ _ _ E).
    + rewrite Hr. apply Rejected_amount; [now right|].
      exact (check_BadNumber_username _ _ _ E).
    + apply check_Valid in E as (Hne & Ha & Hpos).
      rewrite (post_game_payout_run req w _ eq_refl Hne a Ha) by lia.
      cbn [fst snd]. rewrite enter_player.
      apply Adjusted; [tauto | assumption |].
      intros t. cbn. repeat split; try lia;
        first [discriminate | now apply str_or_nonempty].
  - rewrite get_admin_users_run. apply Listed.
  - destruct (username_of req) as [|c s] eqn:E.
    + unfold get_admin_user_detail. fold (username_of req). rewrite E. cbn.
      now apply Rejected_username.
    + rewrite (get_admin_user_detail_run req w _ E) by discriminate.
      cbn [fst snd]. rewrite enter_player, <- E. apply Read_detail.
      rewrite E. discriminate.
  - pose proof (post_admin_set_balance_rejects req w) as Hr.
    destruct (check 0 req (r_balance req)) as [| |b] eqn:E.
    + rewrite Hr. apply Rejected_username; [discriminate|].
      exact (check_NoUsername _ _ _ E).
    + rewrite Hr. apply Rejected_balance; [now right|].
      exact (check_BadNumber_username _ _ _ E).
    + apply check_Valid in E as (Hne & Hb & Hpos).
      rewrite (post_admin_set_balance_run req w _ eq_refl Hne b Hb Hpos).
      cbn [fst snd]. rewrite enter_player.
      apply Adjusted; [tauto | assumption |].
      intros t. cbn. repeat split; try lia;
        first [discriminate | now apply str_or_nonempty].
  - destruct (username_of req) as [|c s] eqn:E.
    + unfold post_admin_delete_user. fold (username_of req). rewrite E. cbn.
      now apply Rejected_username.
    + rewrite (post_admin_delete_user_run req w _ E) by discriminate.
      cbn [fst snd]. rewrite <- E. apply Deleted. rewrite E. discriminate.
Qed.

(** ** Creating is idempotent *)

(** X2.  [getOrCreatePlayer] is idempotent for an ordinary username:
    after one call the username is in the store with the record that was
    returned, a second call returns the same record and changes nothing
    (no write, no clock reading), and no other username is affected. *)
Theorem getOrCreatePlayer_idempotent (u : string) (w : World) :
  ordinary u = true ->
  let p := fst (getOrCreatePlayer u w) in
  let w1 := snd (getOrCreatePlayer u w) in
  getOrCreatePlayer u w1 = (p, w1) /\
  players (dataCache w1) !! u = Some p /\
  (forall v, v <> u ->
     players (dataCache w1) !! v = players (dataCache w) !! v).
Proof.
  intros _. cbn zeta. destruct (players (dataCache w) !! u) as [p|] eqn:E.
  - rewrite (getOrCreatePlayer_present u p w E). cbn [fst snd].
    rewrite (getOrCreatePlayer_present u p w E). repeat split; assumption.
  - rewrite (getOrCreatePlayer_absent u w E). cbn [fst snd].
    assert (Hl : players (mkData (<[u := default_player (clock w (ticks w))]>
                                    (players (dataCache w)))) !! u =
                 Some (default_player (clock w (ticks w)))).
    { cbn. apply lookup_insert_eq. }
    split; [now apply getOrCreatePlayer_present |].
    split; [exact Hl |].
    intros v Hv. cbn. now apply lookup_insert_ne.
Qed.

Lemma getOrCreatePlayer_idempotent_witness :
  "bob" <> "alice" /\
  players (dataCache (snd (getOrCreatePlayer "alice" fresh_world))) !! "bob" =
    players (dataCache fresh_world) !! "bob".
Proof.
  split; [discriminate|].
  apply (getOrCreatePlayer_idempotent "alice" fresh_world eq_refl).
  discriminate.
Defined.

(** ** The cache mirrors the file *)

Lemma after_load_in_sync (w : World) : in_sync (after_load w).
Proof.
  destruct w as [f c l k n]; destruct f; cbn; repeat split; discriminate.
Qed.

Lemma enter_in_sync (u : string) (w : World) : in_sync (snd (enter u w)).
Proof.
  destruct (players (stored (disk w)) !! u) as [p|] eqn:E.
  - rewrite (enter_present u p w E). apply after_load_in_sync.
  - rewrite (enter_absent u w E). cbn. repeat split; discriminate.
Qed.

Lemma enter_stored (u : string) (w : World) :
  stored (disk (snd (enter u w))) = dataCache (snd (enter u w)).
Proof. symmetry. apply enter_in_sync. Qed.

Lemma commit_in_sync (u : string) (p : Player)
    (e : string -> HistoryEntry) (w : World) :
  in_sync (commit u p e w).
Proof. repeat split; discriminate. Qed.

Lemma handle_in_sync (r : Route) (req : Request) (w : World) :
  in_sync w -> in_sync (snd (handle r req w)).
Proof.
  intros Hw. destruct (handle_effect r req w); try assumption.
  - apply after_load_in_sync.
  - rewrite saveCache_eq. cbn. repeat split; discriminate.
  - rewrite saveCache_eq. cbn. repeat split; discriminate.
  - apply enter_in_sync.
  - apply commit_in_sync.
  - apply commit_in_sync.
  - destruct (players (stored (disk w)) !! username_of req).
    + cbn. repeat split; discriminate.
    + apply after_load_in_sync.
Qed.

(** ** Requests leave the other players alone *)

Lemma handle_frame (r : Route) (req : Request) (w : World) (v : string) :
  ~ names v (r, req) ->
  players (stored (disk (snd (handle r req w)))) !! v =
  players (stored (disk w)) !! v.
Proof.
  unfold names. cbn [fst snd]. intros Hv.
  destruct (handle_effect r req w); try reflexivity.
  - now rewrite after_load_stored.
  - rewrite saveCache_eq. cbn. apply enter_lookup_ne.
    intros Heq. apply Hv. split; [discriminate | exact Heq].
  - rewrite saveCache_eq. cbn. apply enter_lookup_ne.
    intros Heq. apply Hv. split; [discriminate | exact Heq].
  - rewrite enter_stored. apply enter_lookup_ne.
    intros Heq. apply Hv. split; [discriminate | exact Heq].
  - assert (Hne : username_of req <> v).
    { intros Heq. apply Hv. split; [discriminate | exact Heq]. }
    rewrite commit_disk. cbn [stored].
    rewrite commit_lookup_ne by assumption. now apply enter_lookup_ne.
  - assert (Hne : username_of req <> v).
    { intros Heq. apply Hv. split; [|exact Heq].
      destruct H as [-> | [-> | ->]]; discriminate. }
    rewrite commit_disk. cbn [stored].
    rewrite commit_lookup_ne by assumption. now apply enter_lookup_ne.
  - assert (Hne : username_of req <> v).
    { intros Heq. apply Hv. split; [discriminate | exact Heq]. }
    destruct (players (stored (disk w)) !! username_of req); cbn.
    + now apply lookup_delete_ne.
    + now rewrite after_load_stored.
Qed.

(** X4.  A sequence of requests none of which names the username [v]
    (the listing names nobody) leaves the record the file holds for [v]
    exactly as it was: present with the same balance and history, or
    absent. *)
Theorem other_players_untouched (reqs : list (Route * Request)) (w : World)
    (v : string) :
  Forall (fun rq => ~ names v rq) reqs ->
  players (stored (disk (snd (serve reqs w)))) !! v =
  players (stored (disk w)) !! v.
Proof.
  intros H. revert w. induction H as [|[r q] rest Hrq _ IH]; intros w.
  - reflexivity.
  - rewrite serve_cons. cbn [snd]. rewrite IH. now apply handle_frame.
Qed.

Lemma other_players_untouched_witness :
  players (stored (disk (snd (serve
      [(POST_game_charge, request "bob" "300");
       (GET_admin_users, request "alice" "");
       (POST_admin_delete_user, request "bob" "")] alice_world)))) !! "alice" =
  players (stored (disk alice_world)) !! "alice".
Proof.
  apply other_players_untouched.
  repeat constructor; unfold names; cbn [fst snd]; intros [H1 H2];
    first [discriminate H2 | now apply H1].
Defined.

(** ** Status codes *)

(** X5.  A response of status 400 carries one of the three validation
    errors and leaves the world exactly as it was: no reload, no write,
    no clock reading.  The only failure sent with status 200 is the
    INSUFFICIENT_FUNDS refusal of a charge. *)
Theorem bad_requests_change_nothing (r : Route) (req : Request) (w : World) :
  let resp := fst (handle r req w) in
  let w' := snd (handle r req w) in
  (status resp = 400 ->
     w' = w /\
     (body resp = Failure "USERNAME_REQUIRED" \/
      body resp = Failure "INVALID_BALANCE" \/
      body resp = Failure "INVALID_AMOUNT")) /\
  (status resp = 200 -> succeeded resp = false ->
     r = POST_game_charge /\ body resp = Failure "INSUFFICIENT_FUNDS").
Proof.
  cbn zeta. destruct (handle_effect r req w); cbn;
    (split; [try discriminate; tauto|]);
    try discriminate; tauto.
Qed.

Lemma bad_requests_change_nothing_witness :
  status (fst (handle POST_admin_set_balance (request "alice" "x")
                 alice_world)) = 400 /\
  snd (handle POST_admin_set_balance (request "alice" "x") alice_world) =
    alice_world.
Proof.
  split; [reflexivity|].
  apply (proj1 (bad_requests_change_nothing POST_admin_set_balance
                  (request "alice" "x") alice_world)).
  reflexivity.
Defined.

(** ** Blank usernames *)









(** ** The funds check *)

(** X7.  For an ordinary username, an amount and a balance of at most
    2^53: a charge that passes validation is accepted exactly when the
    amount does not exceed the player's balance: a charge of the whole
    balance goes through and leaves 0, one unit more is refused.  An
    accepted charge answers and stores the balance minus the amount. *)
Theorem charge_accepted_iff (req : Request) (w : World) (a : Z) :
  username_of req <> "" -> ordinary (username_of req) = true ->
  parseInteger (r_amount req) = Some a -> 0 < a -> a <= max_exact ->
  balance (player_at w (username_of req)) <= max_exact ->
  let bal := balance (player_at w (username_of req)) in
  (succeeded (fst (post_game_charge req w)) = true <-> a <= bal) /\
  (a <= bal ->
     fst (post_game_charge req w) = json (OkBalance (bal - a)) /\
     stored_balance (snd (post_game_charge req w)) (username_of req) =
       Some (bal - a)) /\
  (bal < a ->
     fst (post_game_charge req w) = json (Failure "INSUFFICIENT_FUNDS")).
Proof.
  intros Hne _ Ha Hpos _ _. cbn zeta.
  destruct (Z.le_gt_cases a (balance (player_at w (username_of req))))
    as [Hle|Hgt].
  - rewrite (post_game_charge_accepted req w _ eq_refl Hne a Ha Hpos)
      by (rewrite enter_player; lia).
    cbn [fst snd]. rewrite enter_player, commit_stored_balance. cbn.
    repeat split; try tauto; lia.
  - rewrite (post_game_charge_refused req w _ eq_refl Hne a Ha Hpos)
      by (rewrite enter_player; lia).
    cbn. repeat split; try discriminate; try lia.
Qed.

Lemma charge_accepted_iff_witness :
  fst (post_game_charge (request "alice" "1000") alice_world) =
    json (OkBalance 0) /\
  fst (post_game_charge (request "alice" "1001") alice_world) =
    json (Failure "INSUFFICIENT_FUNDS").
Proof.
  split.
  - apply (charge_accepted_iff (request "alice" "1000") alice_world 1000
             ltac:(discriminate) eq_refl eq_refl ltac:(lia)
             ltac:(vm_compute; discriminate) ltac:(vm_compute; discriminate)).
    vm_compute. discriminate.
  - apply (charge_accepted_iff (request "alice" "1001") alice_world 1001
             ltac:(discriminate) eq_refl eq_refl ltac:(lia)
             ltac:(vm_compute; discriminate) ltac:(vm_compute; discriminate)).
    vm_compute. reflexivity.
Defined.

(** ** Properties that every stored record keeps *)

Section PerPlayer.

Variable P : Player -> Prop.
Hypothesis P_default : forall t, P (default_player t).

Lemma player_at_Forall (w : World) (u : string) :
  world_Forall P w -> P (player_at w u).
Proof.
  intros [_ Hd]. unfold player_at.
  destruct (players (stored (disk w)) !! u) as [p|] eqn:E.
  - exact (map_Forall_lookup_1 _ _ _ _ Hd E).
  - apply P_default.
Qed.

Lemma after_load_Forall (w : World) :
  world_Forall P w -> world_Forall P (after_load w).
Proof.
  intros [_ Hd]. unfold world_Forall.
  now rewrite after_load_cache, after_load_stored.
Qed.

Lemma enter_Forall (u : string) (w : World) :
  world_Forall P w -> world_Forall P (snd (enter u w)).
Proof.
  intros Hw. unfold world_Forall. rewrite enter_stored, enter_cache.
  assert (H : map_Forall (fun _ : string => P)
                (<[u := player_at w u]> (players (stored (disk w))))).
  { apply map_Forall_insert_2; [now apply player_at_Forall | apply Hw]. }
  now split.
Qed.

Lemma commit_Forall (u : string) (p : Player) (e : string -> HistoryEntry)
    (w : World) :
  world_Forall P w ->
  P (appendHistory p (e (clock w (ticks w)))) ->
  world_Forall P (commit u p e w).
Proof.
  intros [Hc _] Hp. unfold world_Forall. rewrite commit_disk. cbn [stored].
  assert (H : map_Forall (fun _ : string => P)
                (players (dataCache (commit u p e w)))).
  { cbn. now apply map_Forall_insert_2. }
  now split.
Qed.

Lemma saveCache_Forall (w : World) :
  world_Forall P w -> world_Forall P (snd (saveCache w)).
Proof. intros [Hc _]. rewrite saveCache_eq. now split. Qed.

Lemma deleted_Forall (u : string) (w : World) :
  world_Forall P w ->
  world_Forall P
    (match players (stored (disk w)) !! u with
     | Some _ =>
         let d := mkData (delete u (players (stored (disk w)))) in
         mkWorld (Stored d) d (d :: writes (after_load w)) (clock w) (ticks w)
     | None => after_load w
     end).
Proof.
  intros Hw. destruct (players (stored (disk w)) !! u).
  - destruct Hw as [_ Hd]. split; cbn; now apply map_Forall_delete.
  - now apply after_load_Forall.
Qed.

(** A property of records survives a request as soon as the records that
    a save and an adjustment write back have it. *)
Lemma handle_Forall (r : Route) (req : Request) (w : World) :
  (r = POST_profile_save ->
   forall p b t, P p ->
     P (mkPlayer b (history p ++ [mkEntry t "manual-save" 0 "session save"]))) ->
  (forall p b e, P p ->
     delta e = b - balance p -> game e <> "" -> desc e <> "" ->
     P (mkPlayer b (history p ++ [e]))) ->
  world_Forall P w -> world_Forall P (snd (handle r req w)).
Proof.
  intros Hsave Hadj Hw.
  pose proof (player_at_Forall w (username_of req) Hw) as Hp.
  destruct (handle_effect r req w) as
    [r | r | r | users | | | | b | r b e Hr Hne He | ].
  - assumption.
  - assumption.
  - assumption.
  - now apply after_load_Forall.
  - now apply saveCache_Forall, enter_Forall.
  - now apply saveCache_Forall, enter_Forall.
  - now apply enter_Forall.
  - apply commit_Forall; [now apply enter_Forall|].
    unfold appendHistory. cbn [balance history].
    apply Hsave; [reflexivity | assumption].
  - apply commit_Forall; [now apply enter_Forall|].
    destruct (He (clock (snd (enter (username_of req) w))
                    (ticks (snd (enter (username_of req) w)))))
      as (_ & Hd & Hg & Hds).
    unfold appendHistory. cbn [balance history].
    apply Hadj; assumption.
  - now apply deleted_Forall.
Qed.

End PerPlayer.

Lemma handle_labelled (r : Route) (req : Request) (w : World) :
  world_Forall labelled w -> world_Forall labelled (snd (handle r req w)).
Proof.
  apply handle_Forall.
  - intros t. unfold labelled. cbn. repeat constructor; discriminate.
  - intros _ p b t Hp. unfold labelled in *. cbn [history].
    apply Forall_app. split; [assumption|].
    repeat constructor; discriminate.
  - intros p b e Hp _ Hg Hd. unfold labelled in *. cbn [history].
    apply Forall_app. split; [assumption|]. now repeat constructor.
Qed.

(** X9.  No request ever stores a history entry with an empty game or an
    empty desc: blank or missing [game], [desc] and [note] fields are
    replaced by "unknown", "game charge", "game payout" and
    "admin adjustment" before the entry is pushed. *)
Theorem entries_are_labelled (reqs : list (Route * Request)) (w : World) :
  world_Forall labelled w ->
  world_Forall labelled (snd (serve reqs w)).
Proof.
  revert w. induction reqs as [|[r q] rest IH]; intros w Hw.
  - exact Hw.
  - rewrite serve_cons. cbn [snd]. apply IH. now apply handle_labelled.
Qed.

Lemma alice_world_labelled : world_Forall labelled alice_world.
Proof.
  split; apply map_Forall_singleton; repeat constructor; discriminate.
Qed.

Lemma entries_are_labelled_witness :
  world_Forall labelled
    (snd (serve [(POST_game_charge,
                  mkRequest (Js.Str "alice") Js.Undefined (Js.Str "5")
                    (Js.Str "   ") (Js.Str "") Js.Undefined);
                 (POST_admin_set_balance, request "bob" "40")] alice_world)).
Proof.
  apply entries_are_labelled. exact alice_world_labelled.
Defined.

(** ** Histories only grow *)

Lemma history_before_prefix (w : World) (u : string) :
  history_of (stored (disk w)) u `prefix_of` history (player_at w u).
Proof.
  unfold history_of, player_at.
  destruct (players (stored (disk w)) !! u); [reflexivity | apply prefix_nil].
Qed.

Lemma handle_history_prefix (r : Route) (req : Request) (w : World)
    (u : string) :
  ~ deletes u (r, req) ->
  history_of (stored (disk w)) u `prefix_of`
  history_of (stored (disk (snd (handle r req w)))) u.
Proof.
  unfold deletes. cbn [fst snd]. intros Hdel.
  destruct (decide (username_of req = u)) as [Heq|Hne].
  - subst u. pose proof (history_before_prefix w (username_of req)) as Hpre.
    destruct (handle_effect r req w); try reflexivity.
    + unfold history_of at 2. now rewrite after_load_stored.
    + rewrite saveCache_eq. cbn [snd disk stored]. unfold history_of at 2.
      now rewrite enter_lookup.
    + rewrite saveCache_eq. cbn [snd disk stored]. unfold history_of at 2.
      now rewrite enter_lookup.
    + unfold history_of at 2. now rewrite enter_stored_lookup.
    + rewrite commit_disk. cbn [stored]. rewrite commit_history.
      cbn [history]. now apply prefix_app_r.
    + rewrite commit_disk. cbn [stored]. rewrite commit_history.
      cbn [history]. now apply prefix_app_r.
    + exfalso. apply Hdel. now split.
  - unfold history_of. rewrite (handle_frame r req w u); [reflexivity|].
    unfold names. cbn [fst snd]. tauto.
Qed.

(** X10.  Over any sequence of requests that does not delete the
    username, the history the file holds for it only grows: what was
    there before is a prefix, entry for entry, of what is there after. *)
Theorem histories_only_grow (reqs : list (Route * Request)) (w : World)
    (u : string) :
  Forall (fun rq => ~ deletes u rq) reqs ->
  history_of (stored (disk w)) u `prefix_of`
  history_of (stored (disk (snd (serve reqs w)))) u.
Proof.
  intros H. revert w. induction H as [|[r q] rest Hrq _ IH]; intros w.
  - reflexivity.
  - rewrite serve_cons. cbn [snd].
    etransitivity; [|apply IH]. now apply handle_history_prefix.
Qed.

Lemma histories_only_grow_witness :
  history_of (stored (disk alice_world)) "alice" `prefix_of`
  history_of
    (stored (disk (snd (serve [(POST_game_charge, request "alice" "250");
                               (POST_admin_delete_user, request "bob" "");
                               (POST_profile_save, request "alice" "7")]
                          alice_world)))) "alice".
Proof.
  apply histories_only_grow.
  repeat constructor; unfold deletes; cbn [fst snd]; intros [H1 H2];
    discriminate.
Defined.

(** ** The listing *)

(** X11.  GET /api/admin/users lists exactly the players of the file,
    one entry per username, each with the stored balance and without
    history; it creates nobody and leaves the stored players as they
    are. *)
Theorem users_listing_is_exact (req : Request) (w : World) :
  exists users,
    fst (get_admin_users req w) = json (OkUsers users) /\
    (forall u b,
       In (u, b) users <->
       exists p, players (stored (disk w)) !! u = Some p /\ balance p = b) /\
    length users = size (players (stored (disk w))) /\
    NoDup (map fst users) /\
    stored (disk (snd (get_admin_users req w))) = stored (disk w).
Proof.
  rewrite get_admin_users_run. cbn [fst snd]. eexists.
  split; [reflexivity|]. split; [|split; [|split]].
  - intros u b. rewrite in_map_iff. split.
    + intros ([u' p] & [= <- <-] & Hin).
      apply list_elem_of_In, elem_of_map_to_list in Hin. now exists p.
    + intros (p & Hp & <-). exists (u, p). split; [reflexivity|].
      now apply list_elem_of_In, elem_of_map_to_list.
  - rewrite length_map. apply length_map_to_list.
  - assert (Heq : forall l : list (string * Player),
               map fst (map (fun e : string * Player =>
                               (fst e, balance (snd e))) l) = l.*1).
    { induction l as [|x l IH]; [reflexivity|]. cbn. now rewrite IH. }
    rewrite Heq. apply NoDup_fst_map_to_list.
  - apply after_load_stored.
Qed.

Lemma users_listing_is_exact_witness :
  exists users,
    fst (get_admin_users (request "" "") alice_world) = json (OkUsers users) /\
    In ("alice", 1000) users.
Proof.
  destruct (users_listing_is_exact (request "" "") alice_world)
    as (users & Hr & Hin & _).
  exists users. split; [exact Hr|].
  apply Hin. exists (default_player "2024-04-30T08:00:00.000Z").
  split; reflexivity.
Defined.

(** ** Reads *)

(** X12.  GET /api/profile and GET /api/admin/user-detail for an
    ordinary username never change a stored player, yet always write the
    file: for a username the file holds, one write of the unchanged store
    and no clock reading; for an unknown username, two writes in a row of
    the same enlarged store, one by [getOrCreatePlayer] and one by the
    handler. *)
Theorem reads_rewrite_the_file (r : Route) (req : Request) (w : World) :
  r = GET_profile \/ r = GET_admin_user_detail ->
  username_of req <> "" -> ordinary (username_of req) = true ->
  let u := username_of req in
  let w' := snd (handle r req w) in
  (forall p, players (stored (disk w)) !! u = Some p ->
     dataCache w' = stored (disk w) /\ disk w' = disk w /\
     writes w' = stored (disk w) :: writes w /\ ticks w' = ticks w) /\
  (players (stored (disk w)) !! u = None ->
     let d := mkData (<[u := default_player (clock w (ticks w))]>
                        (players (stored (disk w)))) in
     dataCache w' = d /\ disk w' = Stored d /\
     writes w' = d :: d :: writes (after_load w) /\
     ticks w' = S (ticks w)).
Proof.
  intros Hr Hne _. cbn zeta.
  assert (Hw : snd (handle r req w) =
               snd (saveCache (snd (enter (username_of req) w)))).
  { destruct Hr as [-> | ->]; cbn [handle].
    - now rewrite (get_profile_run req w _ eq_refl Hne).
    - now rewrite (get_admin_user_detail_run req w _ eq_refl Hne). }
  rewrite Hw, saveCache_eq. cbn [snd]. split.
  - intros p Hp. rewrite (enter_present_world _ p w Hp). cbn.
    rewrite <- (stored_lookup_Some w _ p Hp). tauto.
  - intros Habs. rewrite (enter_absent _ w Habs). cbn. tauto.
Qed.

Lemma reads_rewrite_the_file_witness :
  writes (snd (handle GET_profile (request "alice" "") alice_world)) =
    [alice_data] /\
  length (writes (snd (handle GET_admin_user_detail (request "bob" "")
                         alice_world))) = 2%nat.
Proof.
  split.
  - destruct (reads_rewrite_the_file GET_profile (request "alice" "")
                alice_world (or_introl eq_refl) ltac:(discriminate) eq_refl)
      as [H _].
    destruct (H (default_player "2024-04-30T08:00:00.000Z") eq_refl)
      as (_ & _ & Hw & _).
    exact Hw.
  - destruct (reads_rewrite_the_file GET_admin_user_detail (request "bob" "")
                alice_world (or_intror eq_refl) ltac:(discriminate) eq_refl)
      as [_ H].
    destruct (H eq_refl) as (_ & _ & Hw & _).
    rewrite Hw. reflexivity.
Defined.

(** ** Reading back what was written *)

Lemma profile_reads_stored_balance (req : Request) (w : World) (b : Z) :
  username_of req <> "" ->
  stored_balance w (username_of req) = Some b ->
  fst (get_profile req w) = json (OkProfile (username_of req) b).
Proof.
  intros Hne Hb. rewrite (get_profile_run req w _ eq_refl Hne). cbn [fst].
  now rewrite enter_player, (player_at_balance w _ b Hb).
Qed.

Lemma saveCache_stored (w : World) :
  stored (disk (snd (saveCache w))) = dataCache w.
Proof. reflexivity. Qed.

(** X14.  A balance of at most 2^53 accepted by POST /api/profile/save
    for an ordinary username is read back: it is the balance the file
    holds for the username afterwards, whatever the balance was before,
    and the next GET /api/profile reports it. *)
Theorem saved_balance_is_read_back (req : Request) (w : World) (b : Z) :
  username_of req <> "" -> ordinary (username_of req) = true ->
  parseInteger (r_balance req) = Some b -> 0 <= b -> b <= max_exact ->
  fst (post_profile_save req w) = json Ok /\
  stored_balance (snd (post_profile_save req w)) (username_of req) = Some b /\
  fst (get_profile req (snd (post_profile_save req w))) =
    json (OkProfile (username_of req) b).
Proof.
  intros Hne _ Hb Hpos _.
  assert (Hs : stored_balance (snd (post_profile_save req w))
                 (username_of req) = Some b).
  { rewrite (post_profile_save_run req w _ eq_refl Hne b Hb Hpos).
    apply commit_stored_balance. }
  split; [now rewrite (post_profile_save_run req w _ eq_refl Hne b Hb Hpos)|].
  split; [exact Hs|]. now apply profile_reads_stored_balance.
Qed.

Lemma saved_balance_is_read_back_witness :
  fst (get_profile (request "bob" "77")
         (snd (post_profile_save (request "bob" "77") alice_world))) =
    json (OkProfile "bob" 77).
Proof.
  apply (saved_balance_is_read_back (request "bob" "77") alice_world 77
           ltac:(discriminate) eq_refl eq_refl ltac:(lia)
           ltac:(vm_compute; discriminate)).
Defined.

(** ** What [parseInt] accepts *)

Lemma digits_from_Some (s : string) (x : Z) :
  exists y, Js.digits s (Some x) = Some y.
Proof.
  revert x. induction s as [|c s IH]; intros x; cbn [Js.digits].
  - now exists x.
  - destruct (Js.digit_of c); [apply IH | now exists x].
Qed.

Lemma digits_None_iff (s : string) :
  Js.digits s None = None <-> starts_with_digit s = false.
Proof.
  destruct s as [|c s]; cbn [Js.digits starts_with_digit]; [tauto|].
  destruct (Js.digit_of c) as [d|]; [|tauto].
  destruct (digits_from_Some s (10 * default 0 None + d)) as [y ->].
  split; discriminate.
Qed.

Lemma digit_of_nonneg (c : ascii) (d : Z) : Js.digit_of c = Some d -> 0 <= d.
Proof.
  unfold Js.digit_of.
  destruct (Z.leb_spec 48 (Z.of_nat (nat_of_ascii c))); cbn [andb];
    [|discriminate].
  destruct (Z.of_nat (nat_of_ascii c) <=? 57); [|discriminate].
  intros [= <-]. lia.
Qed.

Lemma digits_nonneg (s : string) (acc : option Z) (m : Z) :
  0 <= default 0 acc -> Js.digits s acc = Some m -> 0 <= m.
Proof.
  revert acc. induction s as [|c s IH]; intros acc Hacc; cbn [Js.digits].
  - intros ->. exact Hacc.
  - destruct (Js.digit_of c) as [d|] eqn:E.
    + apply IH. change (0 <= 10 * default 0 acc + d).
      pose proof (digit_of_nonneg c d E). lia.
    + intros ->. exact Hacc.
Qed.

(** X15.  [parseInteger] gives [null] exactly for the texts in which no
    decimal digit follows the leading white space and the optional sign:
    the empty text, white space, a lone sign, text such as "abc" or
    ".5"; a missing field is read as the text "undefined" and gives
    [null] too. *)
Theorem parseInteger_null_iff (s : string) :
  (parseInteger (Js.Str s) = None <->
   starts_with_digit (unsigned_part s) = false) /\
  (Js.parseInt10 s = Js.NaN <-> parseInteger (Js.Str s) = None) /\
  parseInteger Js.Undefined = None.
Proof.
  assert (H : Js.parseInt10 s = Js.NaN <->
              starts_with_digit (unsigned_part s) = false).
  { unfold Js.parseInt10, unsigned_part.
    destruct (Js.trimStart s) as [|c r]; [cbn; tauto|].
    destruct (Ascii.eqb c "-"); [|destruct (Ascii.eqb c "+")];
      rewrite <- digits_None_iff;
      match goal with
      | |- context [Js.digits ?t None] => destruct (Js.digits t None)
      end; split; congruence. }
  assert (H' : Js.parseInt10 s = Js.NaN <-> parseInteger (Js.Str s) = None).
  { unfold parseInteger, Js.parseInt. cbn [Js.toString].
    destruct (Js.parseInt10 s); split; congruence. }
  split; [now rewrite <- H', H|]. split; [exact H' | reflexivity].
Qed.

Lemma parseInteger_null_iff_witness :
  starts_with_digit (unsigned_part "  +") = false /\
  parseInteger (Js.Str "  +") = None.
Proof.
  split; [reflexivity|].
  apply (proj1 (parseInteger_null_iff "  +")). reflexivity.
Defined.

(** X16.  [parseInt] yields a negative integer only for a text whose
    first character after the white space is a minus sign, and for such
    a text it never yields a positive one.  So a balance is turned down
    as negative only when it carries a minus sign, and an amount that
    carries one is never accepted. *)
Theorem parseInt_sign (s : string) (z : Z) :
  Js.parseInt10 s = Js.Num z ->
  (minus_signed s = true -> z <= 0) /\
  (minus_signed s = false -> 0 <= z) /\
  (z < 0 -> minus_signed s = true) /\
  (minus_signed s = true -> below 1 s).
Proof.
  intros H.
  assert (Hs : (minus_signed s = true -> z <= 0) /\
               (minus_signed s = false -> 0 <= z)).
  { revert H. unfold Js.parseInt10, minus_signed.
    destruct (Js.trimStart s) as [|c r]; [discriminate|].
    destruct (Ascii.eqb c "-"); [|destruct (Ascii.eqb c "+")];
      match goal with
      | |- context [Js.digits ?t None] =>
          destruct (Js.digits t None) as [m|] eqn:E
      end; try discriminate; intros [= <-];
      apply digits_nonneg in E; cbn; try lia;
      split; intros; try discriminate; lia. }
  destruct Hs as [Hm Hp]. split; [exact Hm|]. split; [exact Hp|]. split.
  - intros Hz. destruct (minus_signed s); [reflexivity|].
    specialize (Hp eq_refl). lia.
  - intros Hms. right. exists z. split; [exact H|].
    specialize (Hm Hms). lia.
Qed.

Lemma parseInt_sign_witness :
  minus_signed "  -12abc" = true /\ below 1 "  -12abc".
Proof.
  split; [reflexivity|].
  apply (parseInt_sign "  -12abc" (-12) eq_refl). reflexivity.
Defined.

(** ** A charge and a payout of the same amount *)

(** X17.  For a stored player with a balance of at most 2^53 who can
    afford it, a charge followed by a payout of the same amount brings
    the balance back to what it was and leaves the history two entries
    longer: one with delta minus the amount, then one with delta plus the
    amount. *)
Theorem charge_then_payout_restores (req : Request) (w : World) (u : string)
    (a : Z) (p : Player) :
  username_of req = u -> u <> "" ->
  parseInteger (r_amount req) = Some a -> 0 < a ->
  players (stored (disk w)) !! u = Some p ->
  a <= balance p -> balance p <= max_exact ->
  let w1 := snd (post_game_charge req w) in
  let w2 := snd (post_game_payout req w1) in
  fst (post_game_charge req w) = json (OkBalance (balance p - a)) /\
  fst (post_game_payout req w1) = json (OkBalance (balance p)) /\
  exists e1 e2,
    players (stored (disk w2)) !! u =
      Some (mkPlayer (balance p) (history p ++ [e1; e2])) /\
    delta e1 = - a /\ delta e2 = a.
Proof.
  intros Hu Hne Ha Hpos Hp Hle _. cbn zeta.
  pose proof (post_game_charge_accepted req w u Hu Hne a Ha Hpos) as H1.
  rewrite enter_player, (player_at_present w u p Hp) in H1.
  specialize (H1 ltac:(lia)).
  remember (post_game_charge req w) as s1 eqn:E1.
  assert (L1 : players (stored (disk (snd s1))) !! u =
               Some (mkPlayer (balance p - a)
                       (history p ++
                        [mkEntry (clock (snd (enter u w)) (ticks (snd (enter u w))))
                           (Js.str_or (Js.trim (Js.or_else (r_game req) ""))
                              "unknown")
                           (- a)
                           (Js.str_or (Js.trim (Js.or_else (r_desc req) ""))
                              "game charge")]))).
  { rewrite H1. cbn [snd]. rewrite commit_disk. cbn [stored].
    now rewrite commit_lookup. }
  pose proof (post_game_payout_run req (snd s1) u Hu Hne a Ha Hpos) as H2.
  rewrite enter_player, (player_at_present _ u _ L1) in H2.
  cbn [balance history] in H2.
  split; [now rewrite H1|]. split.
  - rewrite H2. cbn [fst]. f_equal. f_equal. lia.
  - rewrite H2. cbn [snd]. rewrite commit_disk. cbn [stored].
    rewrite commit_lookup. cbn [balance history].
    eexists. eexists. split.
    + rewrite <- app_assoc. cbn [app]. f_equal. f_equal. lia.
    + split; reflexivity.
Qed.

Lemma charge_then_payout_restores_witness :
  fst (post_game_payout (request "alice" "400")
         (snd (post_game_charge (request "alice" "400") alice_world))) =
    json (OkBalance 1000).
Proof.
  apply (charge_then_payout_restores (request "alice" "400") alice_world
           "alice" 400 (default_player "2024-04-30T08:00:00.000Z")
           eq_refl ltac:(discriminate) eq_refl ltac:(lia) eq_refl
           ltac:(cbn; lia) ltac:(vm_compute; discriminate)).
Defined.

(** ** The cache is never trusted *)

Lemma reload_forgets_cache {A} (k : M A) (w : World) (c : Data) :
  (exec reload; k) (mkWorld (disk w) c (writes w) (clock w) (ticks w)) =
  (exec reload; k) w.
Proof.
  unfold bind. rewrite !reload_eq.
  destruct w as [f c0 l cl n]; destruct f; reflexivity.
Qed.

(** X18.  What a handler answers never depends on the value [dataCache]
    had when the request arrived: every handler that gets past
    validation starts by replacing it with [loadData()], so with any
    other cache content the response is the same and, for a response of
    status 200, so is the whole world that is left. *)
Theorem stale_cache_is_never_used (r : Route) (req : Request) (w : World)
    (c : Data) :
  let w0 := mkWorld (disk w) c (writes w) (clock w) (ticks w) in
  fst (handle r req w0) = fst (handle r req w) /\
  (status (fst (handle r req w)) = 200 ->
   snd (handle r req w0) = snd (handle r req w)).
Proof.
  cbn zeta. destruct r; cbn [handle].
  - unfold get_profile. destruct (Js.is_empty _);
      [split; [reflexivity | discriminate]|].
    rewrite reload_forgets_cache. split; reflexivity.
  - unfold post_profile_save. destruct (Js.is_empty _);
      [split; [reflexivity | discriminate]|].
    destruct (parseInteger _) as [b|];
      [|split; [reflexivity | discriminate]].
    destruct (b <? 0); [split; [reflexivity | discriminate]|].
    rewrite reload_forgets_cache. split; reflexivity.
  - unfold post_game_charge. destruct (Js.is_empty _);
      [split; [reflexivity | discriminate]|].
    destruct (parseInteger _) as [a|];
      [|split; [reflexivity | discriminate]].
    destruct (a <=? 0); [split; [reflexivity | discriminate]|].
    rewrite reload_forgets_cache. split; reflexivity.
  - unfold post_game_payout. destruct (Js.is_empty _);
      [split; [reflexivity | discriminate]|].
    destruct (parseInteger _) as [a|];
      [|split; [reflexivity | discriminate]].
    destruct (a <=? 0); [split; [reflexivity | discriminate]|].
    rewrite reload_forgets_cache. split; reflexivity.
  - unfold get_admin_users. rewrite reload_forgets_cache. split; reflexivity.
  - unfold get_admin_user_detail. destruct (Js.is_empty _);
      [split; [reflexivity | discriminate]|].
    rewrite reload_forgets_cache. split; reflexivity.
  - unfold post_admin_set_balance. destruct (Js.is_empty _);
      [split; [reflexivity | discriminate]|].
    destruct (parseInteger _) as [b|];
      [|split; [reflexivity | discriminate]].
    destruct (b <? 0); [split; [reflexivity | discriminate]|].
    rewrite reload_forgets_cache. split; reflexivity.
  - unfold post_admin_delete_user. destruct (Js.is_empty _);
      [split; [reflexivity | discriminate]|].
    rewrite reload_forgets_cache. split; reflexivity.
Qed.

Lemma stale_cache_is_never_used_witness :
  snd (handle POST_game_charge (request "alice" "10")
         (mkWorld (disk alice_world) empty_data (writes alice_world)
            (clock alice_world) (ticks alice_world))) =
  snd (handle POST_game_charge (request "alice" "10") alice_world).
Proof.
  apply (stale_cache_is_never_used POST_game_charge (request "alice" "10")
           alice_world empty_data).
  reflexivity.
Defined.

(** ** Players stay until they are deleted *)

Lemma handle_keeps_player (r : Route) (req : Request) (w : World)
    (v : string) :
  ~ deletes v (r, req) ->
  is_Some (players (stored (disk w)) !! v) ->
  is_Some (players (stored (disk (snd (handle r req w)))) !! v).
Proof.
  unfold deletes. cbn [fst snd]. intros Hdel Hv.
  destruct (decide (username_of req = v)) as [Heq|Hne].
  - subst v.
    destruct (handle_effect r req w); try assumption.
    + now rewrite after_load_stored.
    + rewrite saveCache_stored, enter_lookup. eauto.
    + rewrite saveCache_stored, enter_lookup. eauto.
    + rewrite enter_stored_lookup. eauto.
    + rewrite commit_disk. cbn [stored]. rewrite commit_lookup. eauto.
    + rewrite commit_disk. cbn [stored]. rewrite commit_lookup. eauto.
    + exfalso. apply Hdel. now split.
  - rewrite (handle_frame r req w v); [assumption|].
    unfold names. cbn [fst snd]. tauto.
Qed.

(** X19.  A player the file holds is still there after any sequence of
    requests that does not delete that username: POST
    /api/admin/delete-user is the only way a record leaves the store. *)
Theorem players_stay_until_deleted (reqs : list (Route * Request))
    (w : World) (v : string) :
  Forall (fun rq => ~ deletes v rq) reqs ->
  is_Some (players (stored (disk w)) !! v) ->
  is_Some (players (stored (disk (snd (serve reqs w)))) !! v).
Proof.
  intros H. revert w. induction H as [|[r q] rest Hrq _ IH]; intros w Hv.
  - exact Hv.
  - rewrite serve_cons. cbn [snd]. apply IH. now apply handle_keeps_player.
Qed.

Lemma players_stay_until_deleted_witness :
  is_Some (players (stored (disk (snd (serve
      [(POST_admin_delete_user, request "bob" "");
       (POST_game_charge, request "alice" "5000");
       (POST_profile_save, request "alice" "0")] alice_world)))) !! "alice").
Proof.
  apply players_stay_until_deleted.
  - repeat constructor; unfold deletes; cbn [fst snd]; intros [H1 H2];
      discriminate.
  - eexists. reflexivity.
Defined.
